(** * Voice pipeline (skills/voice-ai-tutor/scripts/voice_pipeline.py)

    A shallow embedding of the voice-question-to-voice-answer pipeline:
    transcription, context retrieval, incremental generation, chunked
    synthesis and the latency metrics.

    Modelling conventions.
    - A Python [str] is a list of Unicode code points ([N]); [len] is the
      list length, so Hebrew text counts one per letter as in Python.
    - [bytes] is a list of bytes.
    - [time.time()] readings are rationals; float rounding is not modelled.
    - The module-level credentials, the clock and the three remote
      providers (Whisper, Claude, ElevenLabs) and the file system are the
      environment [Env]: arbitrary functions, indexed by call number where
      the code can call them more than once.
    - Effects are a state-and-exception monad over [World], which holds the
      request's [VoicePipelineMetrics] object, the call counters and the
      trace of external calls.  The stages are modelled under a standard
      output that accepts every line, so their [print] calls are left out;
      [retrieve_context_printing] is [retrieve_context] with its two
      [print] calls, for a standard output that may refuse a line. *)

From Stdlib Require Import List ZArith NArith QArith Bool Lia.
From Stdlib Require String Ascii DecimalString.
Import ListNotations.
Import String.StringSyntax.

Delimit Scope string_scope with string.

Local Open Scope list_scope.

(** ** Strings *)

Definition char := N.
Definition str := list char.
Definition bytes := list Byte.byte.

(** A literal: the code points of an ASCII string. *)
Definition lit (s : String.string) : str :=
  map Ascii.N_of_ascii (String.list_ascii_of_string s).
Arguments lit s%_string.

Definition len (s : str) : Z := Z.of_nat (length s).

(** [sep.join(parts)] with the empty separator. *)
Definition join (parts : list str) : str := concat parts.

Definition char_eqb (a b : char) : bool := N.eqb a b.

Fixpoint str_eqb (a b : str) : bool :=
  match a, b with
  | [], [] => true
  | x :: a', y :: b' => char_eqb x y && str_eqb a' b'
  | _, _ => false
  end.

(** Python truthiness of a [str]. *)
Definition truthy (s : str) : bool :=
  match s with [] => false | _ :: _ => true end.

(** Truthiness of an [Optional[str]] ([os.getenv] gives [None] or a string). *)
Definition truthy_opt (o : option str) : bool :=
  match o with None => false | Some s => truthy s end.

(** [str.isspace] on one code point (CPython's [_PyUnicode_IsWhitespace]). *)
Definition is_space (c : char) : bool :=
  ((9 <=? c) && (c <=? 13) || (28 <=? c) && (c <=? 32)
   || (c =? 133) || (c =? 160) || (c =? 5760)
   || (8192 <=? c) && (c <=? 8202)
   || (c =? 8232) || (c =? 8233) || (c =? 8239) || (c =? 8287)
   || (c =? 12288))%N.

Fixpoint lstrip (s : str) : str :=
  match s with
  | [] => []
  | c :: s' => if is_space c then lstrip s' else s
  end.

Definition rstrip (s : str) : str := rev (lstrip (rev s)).

(** [s.strip()] *)
Definition strip (s : str) : str := rstrip (lstrip s).

Fixpoint startswith (s prefix : str) : bool :=
  match prefix, s with
  | [], _ => true
  | p :: prefix', c :: s' => char_eqb p c && startswith s' prefix'
  | _ :: _, [] => false
  end.

(** [s.endswith(suffix)] *)
Definition endswith (s suffix : str) : bool :=
  startswith (rev s) (rev suffix).

(** [s.endswith((a, b, ...))] with a tuple of suffixes. *)
Definition endswith_any (s : str) (suffixes : list str) : bool :=
  existsb (endswith s) suffixes.

(** ** Latency metrics *)

Record VoicePipelineMetrics := mkMetrics {
  stt_start : Q;
  stt_end : Q;
  rag_start : Q;
  rag_end : Q;
  llm_start : Q;
  llm_first_token : Q;
  llm_end : Q;
  tts_start : Q;
  tts_end : Q;
}.

(** [VoicePipelineMetrics.__init__]: every timestamp starts at 0. *)
Definition VoicePipelineMetrics_init : VoicePipelineMetrics :=
  mkMetrics 0%Q 0%Q 0%Q 0%Q 0%Q 0%Q 0%Q 0%Q 0%Q.

(** Truthiness of a number: anything but zero. *)
Definition nonzero (q : Q) : bool := negb (Qeq_bool q 0%Q).

Record LatencyReport := mkReport {
  stt_latency_ms : Q;
  rag_latency_ms : Q;
  llm_first_token_ms : Q;
  llm_total_ms : Q;
  tts_latency_ms : Q;
  total_latency_ms : Q;
}.

Definition report (self : VoicePipelineMetrics) : LatencyReport :=
  {| stt_latency_ms :=
       (if nonzero (stt_end self)
       then (stt_end self - stt_start self) * 1000 else 0)%Q;
     rag_latency_ms :=
       (if nonzero (rag_end self)
       then (rag_end self - rag_start self) * 1000 else 0)%Q;
     llm_first_token_ms :=
       (if nonzero (llm_first_token self)
       then (llm_first_token self - llm_start self) * 1000 else 0)%Q;
     llm_total_ms :=
       (if nonzero (llm_end self)
       then (llm_end self - llm_start self) * 1000 else 0)%Q;
     tts_latency_ms :=
       (if nonzero (tts_end self)
       then (tts_end self - tts_start self) * 1000 else 0)%Q;
     total_latency_ms :=
       (if nonzero (tts_end self) && nonzero (stt_start self)
       then (tts_end self - stt_start self) * 1000 else 0)%Q |}.

(** ** Environment, world and the effect monad *)

(** Exceptions, all subclasses of [Exception]: the [ValueError] the code
    raises itself, and whatever a provider, the network or the file system
    raises. *)
Inductive exn :=
| ValueError (msg : str)
| ProviderError (msg : str).

Inductive result (A : Type) :=
| Ok (a : A)
| Raise (e : exn).
Arguments Ok {A} a.
Arguments Raise {A} e.

(** The object Whisper answers with; [language] and [duration] are read
    under [hasattr]. *)
Record Transcription := mkTranscription {
  tr_text : str;
  tr_language : option str;
  tr_duration : option Q;
}.

Record Env := mkEnv {
  ANTHROPIC_API_KEY : option str;
  OPENAI_API_KEY : option str;
  ELEVENLABS_API_KEY : option str;
  (** [clock n]: what the n-th call of [time.time()] returns. *)
  clock : nat -> Q;
  (** Opening the audio file and [client.audio.transcriptions.create]. *)
  whisper : str -> option str -> result Transcription;
  (** [client.messages.stream]: the increments of [text_stream], then a
      normal end ([None]) or an exception. *)
  claude : str -> list str * option exn;
  (** [b"".join(generate(text, voice))] at the n-th call. *)
  elevenlabs : nat -> str -> str -> result bytes;
  (** Opening a file for writing and writing to it. *)
  write_file : str -> bytes -> option exn;
}.

(** What a request does that can be observed from outside its local state:
    the calls that reach a provider or the file system, and each call of
    [synthesize_speech] with the text it is given (the source prints its
    [[TTS] Synthesizing speech] line there). *)
Inductive Event :=
| CallWhisper (audio_file : str) (language : option str)
| CallClaude (full_message : str)
| Synthesize (text voice_id : str)
| CallElevenLabs (text voice_id : str)
| WriteFile (path : str) (data : bytes).

(** The state threaded through a request: the [VoicePipelineMetrics] object
    of the request, how often the clock and ElevenLabs were called, and the
    events so far, oldest first. *)
Record World := mkWorld {
  metrics : VoicePipelineMetrics;
  time_calls : nat;
  tts_calls : nat;
  trace : list Event;
}.

Definition M (A : Type) : Type := World -> result A * World.

Definition ret {A} (a : A) : M A := fun w => (Ok a, w).

Definition bind {A B} (m : M A) (k : A -> M B) : M B :=
  fun w =>
    match m w with
    | (Ok a, w') => k a w'
    | (Raise e, w') => (Raise e, w')
    end.

Definition raise {A} (e : exn) : M A := fun w => (Raise e, w).

(** [try: m  except Exception as e: handler e] *)
Definition try_except {A} (m : M A) (handler : exn -> M A) : M A :=
  fun w =>
    match m w with
    | (Ok a, w') => (Ok a, w')
    | (Raise e, w') => handler e w'
    end.

Declare Scope monad_scope.
Delimit Scope monad_scope with monad.
Bind Scope monad_scope with M.
Notation "x <- m ;; k" := (bind m (fun x => k))
  (at level 61, m at next level, right associativity) : monad_scope.
Notation "m ;; k" := (bind m (fun _ => k))
  (at level 61, right associativity) : monad_scope.
Local Open Scope monad_scope.

Definition when (b : bool) (m : M unit) : M unit :=
  if b then m else ret tt.

Definition emit (e : Event) : M unit :=
  fun w => (Ok tt, mkWorld (metrics w) (time_calls w) (tts_calls w) (trace w ++ [e])).

Definition update_metrics (f : VoicePipelineMetrics -> VoicePipelineMetrics) : M unit :=
  fun w => (Ok tt, mkWorld (f (metrics w)) (time_calls w) (tts_calls w) (trace w)).

Definition set_stt_start (t : Q) (m : VoicePipelineMetrics) :=
  mkMetrics t (stt_end m) (rag_start m) (rag_end m) (llm_start m)
            (llm_first_token m) (llm_end m) (tts_start m) (tts_end m).
Definition set_stt_end (t : Q) (m : VoicePipelineMetrics) :=
  mkMetrics (stt_start m) t (rag_start m) (rag_end m) (llm_start m)
            (llm_first_token m) (llm_end m) (tts_start m) (tts_end m).
Definition set_rag_start (t : Q) (m : VoicePipelineMetrics) :=
  mkMetrics (stt_start m) (stt_end m) t (rag_end m) (llm_start m)
            (llm_first_token m) (llm_end m) (tts_start m) (tts_end m).
Definition set_rag_end (t : Q) (m : VoicePipelineMetrics) :=
  mkMetrics (stt_start m) (stt_end m) (rag_start m) t (llm_start m)
            (llm_first_token m) (llm_end m) (tts_start m) (tts_end m).
Definition set_llm_start (t : Q) (m : VoicePipelineMetrics) :=
  mkMetrics (stt_start m) (stt_end m) (rag_start m) (rag_end m) t
            (llm_first_token m) (llm_end m) (tts_start m) (tts_end m).
Definition set_llm_first_token (t : Q) (m : VoicePipelineMetrics) :=
  mkMetrics (stt_start m) (stt_end m) (rag_start m) (rag_end m) (llm_start m)
            t (llm_end m) (tts_start m) (tts_end m).
Definition set_llm_end (t : Q) (m : VoicePipelineMetrics) :=
  mkMetrics (stt_start m) (stt_end m) (rag_start m) (rag_end m) (llm_start m)
            (llm_first_token m) t (tts_start m) (tts_end m).
Definition set_tts_start (t : Q) (m : VoicePipelineMetrics) :=
  mkMetrics (stt_start m) (stt_end m) (rag_start m) (rag_end m) (llm_start m)
            (llm_first_token m) (llm_end m) t (tts_end m).
Definition set_tts_end (t : Q) (m : VoicePipelineMetrics) :=
  mkMetrics (stt_start m) (stt_end m) (rag_start m) (rag_end m) (llm_start m)
            (llm_first_token m) (llm_end m) (tts_start m) t.

(** [metrics = VoicePipelineMetrics()] *)
Definition new_metrics : M unit := update_metrics (fun _ => VoicePipelineMetrics_init).

Section Pipeline.

Variable env : Env.

(** [time.time()] *)
Definition time_time : M Q :=
  fun w => (Ok (clock env (time_calls w)),
            mkWorld (metrics w) (S (time_calls w)) (tts_calls w) (trace w)).

(** [if metrics: metrics.<field> = time.time()]; the argument [tracked]
    says whether the caller passed the request's metrics object or [None]. *)
Definition stamp (tracked : bool)
    (set : Q -> VoicePipelineMetrics -> VoicePipelineMetrics) : M unit :=
  when tracked (t <- time_time ;; update_metrics (set t)).

Definition call_whisper (audio_file : str) (language : option str) : M Transcription :=
  emit (CallWhisper audio_file language) ;;
  match whisper env audio_file language with
  | Ok t => ret t
  | Raise e => raise e
  end.

Definition call_elevenlabs (text voice_id : str) : M bytes :=
  fun w =>
    let w' := mkWorld (metrics w) (time_calls w) (S (tts_calls w))
                      (trace w ++ [CallElevenLabs text voice_id]) in
    match elevenlabs env (tts_calls w) text voice_id with
    | Ok b => (Ok b, w')
    | Raise e => (Raise e, w')
    end.

Definition call_write_file (path : str) (data : bytes) : M unit :=
  emit (WriteFile path data) ;;
  match write_file env path data with
  | None => ret tt
  | Some e => raise e
  end.

(** ** The stages *)

Definition DEFAULT_HEBREW_VOICE_ID : str := lit "21m00Tcm4TlvDq8ikWAM".
Definition DEFAULT_ENGLISH_VOICE_ID : str := lit "21m00Tcm4TlvDq8ikWAM".

(** The dictionary [transcribe_audio] returns. *)
Record TranscriptionResult := mkTranscriptionResult {
  text : str;
  language : option str;
  duration : Q;
}.

Definition transcribe_audio (audio_file : str) (language : option str)
    (tracked : bool) : M TranscriptionResult :=
  stamp tracked set_stt_start ;;
  if negb (truthy_opt (OPENAI_API_KEY env)) then
    raise (ValueError (lit "OPENAI_API_KEY environment variable not set"))
  else
    transcription <-
      call_whisper audio_file (if truthy_opt language then language else None) ;;
    stamp tracked set_stt_end ;;
    ret {| text := tr_text transcription;
           language := match tr_language transcription with
                       | Some l => Some l
                       | None => language
                       end;
           duration := match tr_duration transcription with
                       | Some d => d
                       | None => 0%Q
                       end |}.

(** [video_id or 'all'] *)
Definition or_all (video_id : option str) : str :=
  match video_id with
  | Some v => if truthy v then v else lit "all"
  | None => lit "all"
  end.

(** [f"Context for query: '{query}' (video: {video_id or 'all'})"] *)
Definition placeholder_context (query : str) (video_id : option str) : str :=
  lit "Context for query: '" ++ query ++ lit "' (video: "
      ++ or_all video_id ++ lit ")".

Definition retrieve_context (query : str) (video_id : option str)
    (tracked : bool) : M str :=
  stamp tracked set_rag_start ;;
  let context := placeholder_context query video_id in
  stamp tracked set_rag_end ;;
  ret context.

Definition newline : char := 10%N.

Definition full_message (user_message context : str) : str :=
  lit "Context from course transcripts:" ++ [newline]
  ++ lit "---" ++ [newline]
  ++ context ++ [newline]
  ++ lit "---" ++ [newline] ++ [newline]
  ++ lit "Student question: " ++ user_message.

Definition call_claude (message : str) : M (list str * option exn) :=
  emit (CallClaude message) ;;
  ret (claude env message).

(** The [for text in stream.text_stream] loop of the generator.  Each
    [yield text] hands control to the consumer's loop body, which runs to
    completion before the next increment is requested; [s] is the consumer's
    local state. *)
Fixpoint text_stream {S : Type} (tracked : bool) (body : S -> str -> M S)
    (texts : list str) (first_token : bool) (s : S) : M S :=
  match texts with
  | [] => ret s
  | text :: rest =>
      stamp (first_token && tracked) set_llm_first_token ;;
      s' <- body s text ;;
      text_stream tracked body rest
                  (if first_token && tracked then false else first_token) s'
  end.

(** [async for chunk in stream_claude_response(...): body] *)
Definition stream_claude_response {S : Type} (user_message context : str)
    (tracked : bool) (body : S -> str -> M S) (s0 : S) : M S :=
  stamp tracked set_llm_start ;;
  if negb (truthy_opt (ANTHROPIC_API_KEY env)) then
    raise (ValueError (lit "ANTHROPIC_API_KEY environment variable not set"))
  else
    r <- call_claude (full_message user_message context) ;;
    s <- text_stream tracked body (fst r) true s0 ;;
    match snd r with
    | Some e => raise e
    | None => stamp tracked set_llm_end ;; ret s
    end.

(** [tracked] is [true] when the caller passes the request's metrics
    object and [false] when it passes [None] or nothing. *)
Definition synthesize_speech (text voice_id : str) (output_file : option str)
    (tracked : bool) : M bytes :=
  stamp tracked set_tts_start ;;
  emit (Synthesize text voice_id) ;;
  if negb (truthy_opt (ELEVENLABS_API_KEY env)) then
    ret []
  else
    try_except
      (audio_bytes <- call_elevenlabs text voice_id ;;
       match output_file with
       | Some path =>
           if truthy path then call_write_file path audio_bytes else ret tt
       | None => ret tt
       end ;;
       stamp tracked set_tts_end ;;
       ret audio_bytes)
      (fun _ => stamp tracked set_tts_end ;; ret []).

End Pipeline.

(** ** The two orchestration modes *)

(** The local lists of the streaming loop. *)
Record LoopState := mkLoop {
  response_chunks : list str;
  buffer : list str;
  audio_chunks : list bytes;
}.

(** The dictionary a pipeline returns. *)
Record PipelineResult := mkResult {
  transcript : str;
  response : str;
  audio_size : Z;
  latency : LatencyReport;
}.

Definition get_metrics : M VoicePipelineMetrics :=
  fun w => (Ok (metrics w), w).

Section Orchestrator.

Variable env : Env.

(** The function bound to the name [retrieve_context] when the pipeline
    runs: the orchestrator calls it with no handler around the call. *)
Variable retrieve : str -> option str -> bool -> M str.

(** [DEFAULT_HEBREW_VOICE_ID if language == "he" else DEFAULT_ENGLISH_VOICE_ID] *)
Definition voice_for (language : str) : str :=
  if str_eqb language (lit "he")
  then DEFAULT_HEBREW_VOICE_ID else DEFAULT_ENGLISH_VOICE_ID.

Definition terminators : list str := [lit "."; lit "!"; lit "?"].

(** The body of the [async for] loop of [voice_pipeline_streaming]. *)
Definition streaming_body (language : str) (chunk_size : Z)
    (st : LoopState) (chunk : str) : M LoopState :=
  let response_chunks' := response_chunks st ++ [chunk] in
  let buffer' := buffer st ++ [chunk] in
  let current_text := join buffer' in
  if (chunk_size <=? len current_text)%Z || endswith_any chunk terminators then
    if truthy (strip current_text) then
      audio <- synthesize_speech env (strip current_text) (voice_for language)
                 None
                 (match audio_chunks st with [] => true | _ :: _ => false end) ;;
      ret (mkLoop response_chunks' [] (audio_chunks st ++ [audio]))
    else ret (mkLoop response_chunks' buffer' (audio_chunks st))
  else ret (mkLoop response_chunks' buffer' (audio_chunks st)).

(** [if buffer: ...] after the loop. *)
Definition flush_remaining (language : str) (st : LoopState) : M LoopState :=
  match buffer st with
  | [] => ret st
  | _ :: _ =>
      let remaining := strip (join (buffer st)) in
      if truthy remaining then
        audio <- synthesize_speech env remaining (voice_for language) None false ;;
        ret (mkLoop (response_chunks st) (buffer st) (audio_chunks st ++ [audio]))
      else ret st
  end.

(** Combining the audio chunks and building the returned dictionary (the
    end of [voice_pipeline_streaming], after the remaining text). *)
Definition assemble (output_audio : option str) (user_message : str)
    (st : LoopState) : M PipelineResult :=
  let full_audio := concat (audio_chunks st) in
  when (truthy_opt output_audio
        && match full_audio with [] => false | _ :: _ => true end)
       (match output_audio with
        | Some path => call_write_file env path full_audio
        | None => ret tt
        end) ;;
  let full_response := join (response_chunks st) in
  m <- get_metrics ;;
  ret {| transcript := user_message;
         response := full_response;
         audio_size := Z.of_nat (List.length full_audio);
         latency := report m |}.

Definition voice_pipeline_streaming_with (audio_file language : str)
    (video_id output_audio : option str) (chunk_size : Z) : M PipelineResult :=
  new_metrics ;;
  transcription <- transcribe_audio env audio_file (Some language) true ;;
  let user_message := text transcription in
  context <- retrieve user_message video_id true ;;
  st <- stream_claude_response env user_message context true
          (streaming_body language chunk_size) (mkLoop [] [] []) ;;
  st <- flush_remaining language st ;;
  assemble output_audio user_message st.

Definition voice_pipeline_simple_with (audio_file language : str)
    (video_id output_audio : option str) : M PipelineResult :=
  new_metrics ;;
  transcription <- transcribe_audio env audio_file (Some language) true ;;
  let user_message := text transcription in
  context <- retrieve user_message video_id true ;;
  response_chunks <- stream_claude_response env user_message context true
                       (fun acc chunk => ret (acc ++ [chunk])) [] ;;
  let full_response := join response_chunks in
  audio <- synthesize_speech env full_response (voice_for language)
             output_audio true ;;
  m <- get_metrics ;;
  ret {| transcript := user_message;
         response := full_response;
         audio_size := Z.of_nat (List.length audio);
         latency := report m |}.

End Orchestrator.

(** The pipelines as the module defines them: [retrieve_context] is the
    placeholder above. *)
Definition voice_pipeline_streaming (env : Env) :=
  voice_pipeline_streaming_with env (retrieve_context env).

Definition voice_pipeline_simple (env : Env) :=
  voice_pipeline_simple_with env (retrieve_context env).

(** The dispatch of [main]: [--stream] selects the streaming pipeline. *)
Definition run_pipeline (env : Env) (stream : bool) (audio_file language : str)
    (video_id output_audio : option str) (chunk_size : Z) : M PipelineResult :=
  if stream then
    voice_pipeline_streaming env audio_file language video_id output_audio
                             chunk_size
  else
    voice_pipeline_simple env audio_file language video_id output_audio.

(** The world a request starts in. *)
Definition initial_world : World :=
  mkWorld VoicePipelineMetrics_init 0 0 [].

(** ** Observations on a trace *)

(** The texts handed to [synthesize_speech], in dispatch order. *)
Fixpoint dispatched (tr : list Event) : list str :=
  match tr with
  | [] => []
  | Synthesize text _ :: tr' => text :: dispatched tr'
  | _ :: tr' => dispatched tr'
  end.

(** The synthesis chunks of a run: dispatched texts with their position in
    [audio_chunks] as sequence number. *)
Record SynthesisChunk := mkChunk {
  chunk_text : str;
  sequence : nat;
}.

Definition emitted_chunks (tr : list Event) : list SynthesisChunk :=
  map (fun p => mkChunk (snd p) (fst p))
      (combine (seq 0 (List.length (dispatched tr))) (dispatched tr)).

(** The calls that reached a remote provider or the file system. *)
Definition is_external (e : Event) : bool :=
  match e with
  | Synthesize _ _ => false
  | _ => true
  end.

Definition external_calls (tr : list Event) : list Event :=
  filter is_external tr.

Fixpoint elevenlabs_calls (tr : list Event) : list str :=
  match tr with
  | [] => []
  | CallElevenLabs text _ :: tr' => text :: elevenlabs_calls tr'
  | _ :: tr' => elevenlabs_calls tr'
  end.

(** ** [retrieve_context] with its progress lines *)

(** [str(n)] for a length. *)
Definition str_of_nat (n : nat) : str :=
  lit (DecimalString.NilZero.string_of_uint (Nat.to_uint n)).

(** [f"[RAG] Retrieving context for: '{query[:50]}...'"] *)
Definition retrieving_line (query : str) : str :=
  lit "[RAG] Retrieving context for: '" ++ firstn 50 query ++ lit "...'".

(** [f"[RAG] Retrieved context: {len(context)} characters"] *)
Definition retrieved_line (context : str) : str :=
  lit "[RAG] Retrieved context: " ++ str_of_nat (List.length context)
      ++ lit " characters".

Section StandardOutput.

Variable env : Env.

(** [stdout text]: the exception [print(text)] raises, if it raises; a
    stream that cannot encode [text] raises [UnicodeEncodeError]. *)
Variable stdout : str -> option exn.

Definition print_line (text : str) : M unit :=
  match stdout text with
  | None => ret tt
  | Some e => raise e
  end.

(** [retrieve_context], every statement of it. *)
Definition retrieve_context_printing (query : str) (video_id : option str)
    (tracked : bool) : M str :=
  stamp env tracked set_rag_start ;;
  print_line (retrieving_line query) ;;
  let context := placeholder_context query video_id in
  stamp env tracked set_rag_end ;;
  print_line (retrieved_line context) ;;
  ret context.

End StandardOutput.

(** ** Sentence splitting *)

(** [char in chars] for a one-character [char]. *)
Definition char_in (c : char) (chars : str) : bool :=
  existsb (char_eqb c) chars.

(** The [for char in text] loop of [split_into_sentences]: [current] holds
    the characters since the last terminator, [sentences] what was closed. *)
Fixpoint split_loop (text current : str) (sentences : list str)
  : list str * str :=
  match text with
  | [] => (sentences, current)
  | c :: rest =>
      if char_in c (lit ".!?")
      then split_loop rest [] (sentences ++ [strip (current ++ [c])])
      else split_loop rest (current ++ [c]) sentences
  end.

Definition split_into_sentences (text : str) : list str :=
  let sentences :=
    match snd (split_loop text [] []) with
    | [] => fst (split_loop text [] [])
    | _ :: _ =>
        fst (split_loop text [] [])
        ++ [strip (snd (split_loop text [] []))]
    end in
  filter truthy sentences.

(** ** The report [main] prints *)

(** [s.replace(old, new)]: the leftmost non-overlapping occurrences of
    [old]; [skip] counts the characters of a match still to be dropped. *)
Fixpoint replace_from (skip : nat) (s old new : str) : str :=
  match s with
  | [] => []
  | c :: s' =>
      match skip with
      | S k => replace_from k s' old new
      | O =>
          if startswith s old
          then new ++ replace_from (Nat.pred (List.length old)) s' old new
          else c :: replace_from O s' old new
      end
  end.

Definition replace (s old new : str) : str :=
  match old with
  | [] => new ++ flat_map (fun c => c :: new) s
  | _ :: _ => replace_from O s old new
  end.

(** A [VoicePipelineMetrics] instance with the attributes [setattr] may add
    beside the nine that [__init__] sets. *)
Record MetricsObject := mkObject {
  slots : VoicePipelineMetrics;
  other_attributes : list (str * Q);
}.

(** [setattr(obj, name, value)] *)
Definition setattr (obj : MetricsObject) (name : str) (value : Q)
  : MetricsObject :=
  let put set := mkObject (set value (slots obj)) (other_attributes obj) in
  if str_eqb name (lit "stt_start") then put set_stt_start
  else if str_eqb name (lit "stt_end") then put set_stt_end
  else if str_eqb name (lit "rag_start") then put set_rag_start
  else if str_eqb name (lit "rag_end") then put set_rag_end
  else if str_eqb name (lit "llm_start") then put set_llm_start
  else if str_eqb name (lit "llm_first_token") then put set_llm_first_token
  else if str_eqb name (lit "llm_end") then put set_llm_end
  else if str_eqb name (lit "tts_start") then put set_tts_start
  else if str_eqb name (lit "tts_end") then put set_tts_end
  else mkObject (slots obj) ((name, value) :: other_attributes obj).

(** [result['metrics'].items()], in the order [report] builds the dict. *)
Definition report_items (r : LatencyReport) : list (str * Q) :=
  [(lit "stt_latency_ms", stt_latency_ms r);
   (lit "rag_latency_ms", rag_latency_ms r);
   (lit "llm_first_token_ms", llm_first_token_ms r);
   (lit "llm_total_ms", llm_total_ms r);
   (lit "tts_latency_ms", tts_latency_ms r);
   (lit "total_latency_ms", total_latency_ms r)].

(** [key.replace('_ms', '').replace('_latency', '')] *)
Definition attribute_name (key : str) : str :=
  replace (replace key (lit "_ms") []) (lit "_latency") [].

(** The object [main] rebuilds from a result's metrics before it calls
    [print_report]. *)
Definition rebuild_metrics (r : LatencyReport) : MetricsObject :=
  fold_left
    (fun obj item =>
       setattr obj (attribute_name (fst item)) (snd item / 1000)%Q)
    (report_items r)
    (mkObject VoicePipelineMetrics_init []).

(** The figures [print_report] formats in [main]. *)
Definition printed_report (r : LatencyReport) : LatencyReport :=
  report (slots (rebuild_metrics r)).

(** * Vocabulary of the properties *)

(** Removing every whitespace character, to compare texts up to spacing. *)
Definition remove_ws (s : str) : str :=
  filter (fun c => negb (is_space c)) s.

(** ** The chunk boundaries as a function of the increments

    [blocks] and [leftover] follow the buffer of the streaming loop alone:
    the lists of increments dispatched inside the loop, and the buffer left
    when the stream ends.  [text_stream_run] below shows that the loop
    dispatches exactly these. *)

Definition fires (T : Z) (buf : list str) (chunk : str) : bool :=
  ((T <=? len (join buf))%Z || endswith_any chunk terminators)
  && truthy (strip (join buf)).

Fixpoint blocks (T : Z) (buf incs : list str) : list (list str) :=
  match incs with
  | [] => []
  | c :: rest =>
      if fires T (buf ++ [c]) c
      then (buf ++ [c]) :: blocks T [] rest
      else blocks T (buf ++ [c]) rest
  end.

Fixpoint leftover (T : Z) (buf incs : list str) : list str :=
  match incs with
  | [] => buf
  | c :: rest =>
      if fires T (buf ++ [c]) c
      then leftover T [] rest
      else leftover T (buf ++ [c]) rest
  end.

Definition stripped (block : list str) : str := strip (join block).

Definition trailing (rest : list str) : list str :=
  if truthy (stripped rest) then [stripped rest] else [].

Definition chunk_texts (T : Z) (incs : list str) : list str :=
  map stripped (blocks T [] incs) ++ trailing (leftover T [] incs).

(** What holds of a buffer the loop keeps: if it has visible text, it is
    under the threshold and its last increment ends no sentence. *)
Definition kept (T : Z) (buf : list str) : Prop :=
  truthy (stripped buf) = true ->
  (len (join buf) < T)%Z /\ endswith_any (last buf []) terminators = false.

(** What holds of a block dispatched inside the loop. *)
Definition dispatched_block (T : Z) (block : list str) : Prop :=
  stripped block <> []
  /\ ((T <= len (join block))%Z
      \/ endswith_any (last block []) terminators = true)
  /\ (len (stripped block) < Z.max T 1 + len (last block []))%Z.

Section Expected.

Variable env : Env.

(** What one call of [synthesize_speech] returns when [k] provider calls
    were made before it, and what it adds to the trace. *)
Definition synth_audio (k : nat) (text voice : str) : bytes :=
  if truthy_opt (ELEVENLABS_API_KEY env) then
    match elevenlabs env k text voice with
    | Ok b => b
    | Raise _ => []
    end
  else [].

Definition synth_events (text voice : str) : list Event :=
  Synthesize text voice
  :: (if truthy_opt (ELEVENLABS_API_KEY env)
      then [CallElevenLabs text voice] else []).

Definition synth_calls : nat :=
  if truthy_opt (ELEVENLABS_API_KEY env) then 1 else 0.

Fixpoint audios (k : nat) (voice : str) (texts : list str) : list bytes :=
  match texts with
  | [] => []
  | t :: ts => synth_audio k t voice :: audios (k + synth_calls) voice ts
  end.

Definition loop_events (voice : str) (texts : list str) : list Event :=
  flat_map (fun t => synth_events t voice) texts.

End Expected.


(** The language that reaches Whisper: [params["language"]] is set only
    [if language]. *)
Definition whisper_language (language : str) : option str :=
  if truthy language then Some language else None.

(** Transcription and generation succeed: both credentials are set, Whisper
    answers with [user_message], and Claude streams [incs] to the end. *)
Definition generation_yields (env : Env) (audio_file language : str)
    (video_id : option str) (user_message : str) (incs : list str) : Prop :=
  truthy_opt (OPENAI_API_KEY env) = true
  /\ truthy_opt (ANTHROPIC_API_KEY env) = true
  /\ (exists t,
        whisper env audio_file (whisper_language language) = Ok t
        /\ tr_text t = user_message)
  /\ claude env
       (full_message user_message (placeholder_context user_message video_id))
     = (incs, None).

(** Every file write the environment is asked for succeeds. *)
Definition writes_succeed (env : Env) : Prop :=
  forall path data, write_file env path data = None.

(** The four timed stages of a request. *)
Inductive Stage := STT | RAG | LLM | TTS.

(** The end timestamp of a stage, and its duration in the report. *)
Definition stage_end (s : Stage) (m : VoicePipelineMetrics) : Q :=
  match s with
  | STT => stt_end m
  | RAG => rag_end m
  | LLM => llm_end m
  | TTS => tts_end m
  end.

Definition stage_latency_ms (s : Stage) (r : LatencyReport) : Q :=
  match s with
  | STT => stt_latency_ms r
  | RAG => rag_latency_ms r
  | LLM => llm_total_ms r
  | TTS => tts_latency_ms r
  end.

(** ** A concrete environment

    All three credentials set, a clock that ticks once per reading from
    1000, a transcription in English, Claude streaming [incs], ElevenLabs
    answering one byte per character, a writable file system. *)
Definition sample_env (incs : list str) : Env :=
  {| ANTHROPIC_API_KEY := Some (lit "sk-ant");
     OPENAI_API_KEY := Some (lit "sk-openai");
     ELEVENLABS_API_KEY := Some (lit "xi");
     clock := fun n => inject_Z (1000 + Z.of_nat n);
     whisper := fun _ _ =>
       Ok (mkTranscription (lit "What is RAG?") (Some (lit "en")) (Some 2%Q));
     claude := fun _ => (incs, None);
     elevenlabs := fun _ t _ => Ok (repeat Byte.x01 (List.length t));
     write_file := fun _ _ => None |}.

(** The scenario stream. *)
Definition hello_world_bye : list str :=
  [lit "Hello"; lit " world."; lit " Bye"].

(** The sample environment without the synthesis credential. *)
Definition silent_env (incs : list str) : Env :=
  {| ANTHROPIC_API_KEY := ANTHROPIC_API_KEY (sample_env incs);
     OPENAI_API_KEY := OPENAI_API_KEY (sample_env incs);
     ELEVENLABS_API_KEY := None;
     clock := clock (sample_env incs);
     whisper := whisper (sample_env incs);
     claude := claude (sample_env incs);
     elevenlabs := elevenlabs (sample_env incs);
     write_file := write_file (sample_env incs) |}.

(** The sample environment with a provider that fails on its second call. *)
Definition flaky_env (incs : list str) : Env :=
  {| ANTHROPIC_API_KEY := ANTHROPIC_API_KEY (sample_env incs);
     OPENAI_API_KEY := OPENAI_API_KEY (sample_env incs);
     ELEVENLABS_API_KEY := ELEVENLABS_API_KEY (sample_env incs);
     clock := clock (sample_env incs);
     whisper := whisper (sample_env incs);
     claude := claude (sample_env incs);
     elevenlabs := fun k t v =>
       if Nat.eqb k 1 then Raise (ProviderError (lit "503"))
       else elevenlabs (sample_env incs) k t v;
     write_file := write_file (sample_env incs) |}.

Definition three_sentences : list str :=
  [lit "One."; lit " Two."; lit " Three."].

(** The sample environment without the transcription credential, and
    without the generation credential. *)
Definition no_openai_env : Env :=
  {| ANTHROPIC_API_KEY := ANTHROPIC_API_KEY (sample_env hello_world_bye);
     OPENAI_API_KEY := None;
     ELEVENLABS_API_KEY := ELEVENLABS_API_KEY (sample_env hello_world_bye);
     clock := clock (sample_env hello_world_bye);
     whisper := whisper (sample_env hello_world_bye);
     claude := claude (sample_env hello_world_bye);
     elevenlabs := elevenlabs (sample_env hello_world_bye);
     write_file := write_file (sample_env hello_world_bye) |}.

Definition no_anthropic_env : Env :=
  {| ANTHROPIC_API_KEY := Some [];
     OPENAI_API_KEY := OPENAI_API_KEY (sample_env hello_world_bye);
     ELEVENLABS_API_KEY := ELEVENLABS_API_KEY (sample_env hello_world_bye);
     clock := clock (sample_env hello_world_bye);
     whisper := whisper (sample_env hello_world_bye);
     claude := claude (sample_env hello_world_bye);
     elevenlabs := elevenlabs (sample_env hello_world_bye);
     write_file := write_file (sample_env hello_world_bye) |}.


(** A text without any of the characters that close a sentence. *)
Definition no_terminator (s : str) : Prop :=
  Forall (fun c => char_in c (lit ".!?") = false) s.

(** A sentence closed by a terminator, with none before it. *)
Definition closed_sentence (s : str) : Prop :=
  exists body c,
    s = body ++ [c] /\ char_in c (lit ".!?") = true /\ no_terminator body.

(** The computation [m] leaves the reading [f] of the metrics object as it
    found it, whether it returns or raises. *)
Definition preserves {A : Type} (f : VoicePipelineMetrics -> Q) (m : M A)
  : Prop :=
  forall w, f (metrics (snd (m w))) = f (metrics w).

(** The setter [set] does not touch what [f] reads. *)
Definition untouched_by (f : VoicePipelineMetrics -> Q)
    (set : Q -> VoicePipelineMetrics -> VoicePipelineMetrics) : Prop :=
  forall t m, f (set t m) = f m.

(** The world in which a request started in [w0] asks Claude for its first
    increment: transcription and retrieval are timed, [llm_start] is set,
    Whisper and Claude have been called. *)
Definition loop_start (env : Env) (audio_file language user_message : str)
    (video_id : option str) (w0 : World) : World :=
  mkWorld
    (mkMetrics (clock env (0 + time_calls w0)) (clock env (1 + time_calls w0))
               (clock env (2 + time_calls w0)) (clock env (3 + time_calls w0))
               (clock env (4 + time_calls w0)) 0%Q 0%Q 0%Q 0%Q)
    (5 + time_calls w0) (tts_calls w0)
    ((trace w0 ++ [CallWhisper audio_file (whisper_language language)])
     ++ [CallClaude (full_message user_message
                       (placeholder_context user_message video_id))]).

(** What the generator does once the increments are consumed. *)
Definition end_of_stream (env : Env) {S : Type} (outcome : option exn) (s : S)
  : M S :=
  match outcome with
  | Some e => raise e
  | None => stamp env true set_llm_end ;; ret s
  end.

(** The sample environment with a transcription provider that fails. *)
Definition deaf_env : Env :=
  {| ANTHROPIC_API_KEY := ANTHROPIC_API_KEY (sample_env hello_world_bye);
     OPENAI_API_KEY := OPENAI_API_KEY (sample_env hello_world_bye);
     ELEVENLABS_API_KEY := ELEVENLABS_API_KEY (sample_env hello_world_bye);
     clock := clock (sample_env hello_world_bye);
     whisper := fun _ _ => Raise (ProviderError (lit "connection refused"));
     claude := claude (sample_env hello_world_bye);
     elevenlabs := elevenlabs (sample_env hello_world_bye);
     write_file := write_file (sample_env hello_world_bye) |}.

(** The sample environment with a Claude stream that breaks after [incs]. *)
Definition broken_stream_env (incs : list str) : Env :=
  {| ANTHROPIC_API_KEY := ANTHROPIC_API_KEY (sample_env incs);
     OPENAI_API_KEY := OPENAI_API_KEY (sample_env incs);
     ELEVENLABS_API_KEY := ELEVENLABS_API_KEY (sample_env incs);
     clock := clock (sample_env incs);
     whisper := whisper (sample_env incs);
     claude := fun _ => (incs, Some (ProviderError (lit "overloaded")));
     elevenlabs := elevenlabs (sample_env incs);
     write_file := write_file (sample_env incs) |}.

(** The sample environment with a file system that refuses every write. *)
Definition readonly_env (incs : list str) : Env :=
  {| ANTHROPIC_API_KEY := ANTHROPIC_API_KEY (sample_env incs);
     OPENAI_API_KEY := OPENAI_API_KEY (sample_env incs);
     ELEVENLABS_API_KEY := ELEVENLABS_API_KEY (sample_env incs);
     clock := clock (sample_env incs);
     whisper := whisper (sample_env incs);
     claude := claude (sample_env incs);
     elevenlabs := elevenlabs (sample_env incs);
     write_file := fun _ _ => Some (ProviderError (lit "read-only")) |}.

(** A standard output that accepts every line. *)
Definition accepting_stdout : str -> option exn := fun _ => None.

(** A standard output encoded in UTF-8 with strict errors: a line holding a
    surrogate code point cannot be encoded and [print] raises
    [UnicodeEncodeError], a subclass of [ValueError]. *)
Definition utf8_stdout : str -> option exn :=
  fun text =>
    if existsb (fun c => (55296 <=? c) && (c <=? 57343))%N text
    then Some (ValueError
                 (lit "'utf-8' codec can't encode character: surrogates not allowed"))
    else None.

(** * Properties *)

Arguments lit : simpl never.

(** ** Whitespace stripping *)

Lemma lstrip_nil_iff (s : str) :
  lstrip s = [] <-> forallb is_space s = true.
Proof.
  induction s as [|c s IH]; simpl.
  - tauto.
  - destruct (is_space c); simpl.
    + exact IH.
    + split; discriminate.
Qed.

Lemma lstrip_all_space_app (p s : str) :
  forallb is_space p = true -> lstrip (p ++ s) = lstrip s.
Proof.
  induction p as [|c p IH]; simpl; intros H.
  - reflexivity.
  - apply andb_true_iff in H as [Hc Hp]. rewrite Hc. auto.
Qed.

Lemma lstrip_all_space (s : str) :
  forallb is_space (lstrip s) = true -> lstrip s = [].
Proof.
  induction s as [|c s IH]; simpl.
  - reflexivity.
  - destruct (is_space c) eqn:E.
    + exact IH.
    + simpl. rewrite E. discriminate.
Qed.

Lemma strip_nil_iff (s : str) :
  strip s = [] <-> forallb is_space s = true.
Proof.
  unfold strip, rstrip. split.
  - intros H.
    assert (H1 : lstrip (rev (lstrip s)) = []).
    { rewrite <- (rev_involutive (lstrip (rev (lstrip s)))), H. reflexivity. }
    apply lstrip_nil_iff in H1.
    rewrite forallb_forall in H1.
    assert (H2 : forallb is_space (lstrip s) = true).
    { apply forallb_forall. intros c Hc. apply H1, in_rev.
      rewrite rev_involutive. exact Hc. }
    apply lstrip_nil_iff, lstrip_all_space, H2.
  - intros H. apply lstrip_nil_iff in H. rewrite H. reflexivity.
Qed.

Lemma length_lstrip (s : str) : (List.length (lstrip s) <= List.length s)%nat.
Proof.
  induction s as [|c s IH]; simpl.
  - lia.
  - destruct (is_space c); simpl; lia.
Qed.

Lemma length_strip (s : str) : (List.length (strip s) <= List.length s)%nat.
Proof.
  unfold strip, rstrip. rewrite length_rev.
  etransitivity; [apply length_lstrip|].
  rewrite length_rev. apply length_lstrip.
Qed.

Lemma len_strip (s : str) : (len (strip s) <= len s)%Z.
Proof. unfold len. pose proof (length_strip s). lia. Qed.

Lemma len_app (a b : str) : len (a ++ b) = (len a + len b)%Z.
Proof. unfold len. rewrite length_app. lia. Qed.

Lemma remove_ws_lstrip (s : str) : remove_ws (lstrip s) = remove_ws s.
Proof.
  induction s as [|c s IH]; simpl.
  - reflexivity.
  - destruct (is_space c) eqn:E; simpl; rewrite ?E; simpl; auto.
Qed.

Lemma remove_ws_rev (s : str) : remove_ws (rev s) = rev (remove_ws s).
Proof.
  unfold remove_ws. induction s as [|c s IH]; simpl.
  - reflexivity.
  - rewrite filter_app, IH. simpl.
    destruct (is_space c); simpl.
    + apply app_nil_r.
    + reflexivity.
Qed.

Lemma remove_ws_strip (s : str) : remove_ws (strip s) = remove_ws s.
Proof.
  unfold strip, rstrip.
  rewrite remove_ws_rev, remove_ws_lstrip, remove_ws_rev, rev_involutive.
  apply remove_ws_lstrip.
Qed.

Lemma remove_ws_app (a b : str) :
  remove_ws (a ++ b) = remove_ws a ++ remove_ws b.
Proof. apply filter_app. Qed.

Lemma remove_ws_all_space (s : str) :
  strip s = [] -> remove_ws s = [].
Proof.
  intros H. rewrite <- remove_ws_strip, H. reflexivity.
Qed.

Lemma truthy_false_iff (s : str) : truthy s = false <-> s = [].
Proof. destruct s; simpl; split; congruence. Qed.

Lemma truthy_true_iff (s : str) : truthy s = true <-> s <> [].
Proof. destruct s; simpl; split; congruence. Qed.

Lemma join_app (a b : list str) : join (a ++ b) = join a ++ join b.
Proof. apply concat_app. Qed.

Lemma join_snoc (a : list str) (c : str) : join (a ++ [c]) = join a ++ c.
Proof. rewrite join_app. simpl. rewrite app_nil_r. reflexivity. Qed.

Lemma blocks_partition (T : Z) (incs buf : list str) :
  concat (blocks T buf incs) ++ leftover T buf incs = buf ++ incs.
Proof.
  revert buf. induction incs as [|c rest IH]; intros buf; simpl.
  - symmetry. apply app_nil_r.
  - destruct (fires T (buf ++ [c]) c); simpl.
    + rewrite <- app_assoc, IH. simpl. rewrite <- app_assoc. reflexivity.
    + rewrite IH, <- app_assoc. reflexivity.
Qed.

Lemma kept_nil (T : Z) : kept T [].
Proof. intros H. discriminate H. Qed.

Lemma stripped_snoc_bound (T : Z) (buf : list str) (c : str) :
  kept T buf ->
  (len (stripped (buf ++ [c])) < Z.max T 1 + len c)%Z.
Proof.
  intros Hk. unfold stripped. rewrite join_snoc.
  destruct (truthy (stripped buf)) eqn:E.
  - destruct (Hk E) as [Hlt _].
    pose proof (len_strip (join buf ++ c)) as Hs.
    rewrite len_app in Hs. lia.
  - apply truthy_false_iff, strip_nil_iff in E.
    unfold strip at 1, rstrip.
    rewrite (lstrip_all_space_app _ _ E).
    fold (rstrip (lstrip c)). fold (strip c).
    pose proof (len_strip c). lia.
Qed.

Lemma blocks_sound (T : Z) (incs buf : list str) :
  kept T buf ->
  Forall (dispatched_block T) (blocks T buf incs)
  /\ kept T (leftover T buf incs).
Proof.
  revert buf. induction incs as [|c rest IH]; intros buf Hk; simpl.
  - split; [constructor | exact Hk].
  - destruct (fires T (buf ++ [c]) c) eqn:F.
    + destruct (IH [] (kept_nil T)) as [Hb Hl].
      split; [|exact Hl].
      constructor; [|exact Hb].
      unfold fires in F. apply andb_true_iff in F as [Hc Ht].
      unfold dispatched_block. rewrite last_last.
      split; [apply truthy_true_iff, Ht|].
      split.
      * apply orb_true_iff in Hc as [Hc|Hc]; [left; lia | right; exact Hc].
      * apply stripped_snoc_bound, Hk.
    + apply IH. intros Ht. unfold fires in F.
      fold (stripped (buf ++ [c])) in F. rewrite Ht, andb_true_r in F.
      apply orb_false_iff in F as [F1 F2].
      rewrite last_last. split; [lia | exact F2].
Qed.

Lemma chunk_texts_nonempty (T : Z) (incs : list str) :
  Forall (fun t => t <> []) (chunk_texts T incs).
Proof.
  unfold chunk_texts. apply Forall_app. split.
  - destruct (blocks_sound T incs [] (kept_nil T)) as [Hb _].
    apply Forall_map. eapply Forall_impl; [|exact Hb].
    intros b Hd. apply Hd.
  - unfold trailing. destruct (truthy (stripped (leftover T [] incs))) eqn:E.
    + constructor; [apply truthy_true_iff, E | constructor].
    + constructor.
Qed.

Lemma remove_ws_blocks (bs : list (list str)) :
  remove_ws (concat (map stripped bs)) = remove_ws (join (concat bs)).
Proof.
  induction bs as [|b bs IH]; simpl.
  - reflexivity.
  - rewrite join_app, !remove_ws_app, IH. unfold stripped.
    rewrite remove_ws_strip. reflexivity.
Qed.

Lemma remove_ws_trailing (rest : list str) :
  remove_ws (concat (trailing rest)) = remove_ws (join rest).
Proof.
  unfold trailing. destruct (truthy (stripped rest)) eqn:E; simpl.
  - rewrite app_nil_r. apply remove_ws_strip.
  - apply truthy_false_iff in E. symmetry. apply remove_ws_all_space, E.
Qed.

Lemma remove_ws_chunk_texts (T : Z) (incs : list str) :
  remove_ws (concat (chunk_texts T incs)) = remove_ws (join incs).
Proof.
  unfold chunk_texts.
  rewrite concat_app, remove_ws_app, remove_ws_blocks, remove_ws_trailing.
  rewrite <- remove_ws_app, <- join_app, blocks_partition. reflexivity.
Qed.

(** ** Running the stages *)

Local Open Scope nat_scope.

Lemma bind_ok {A B} (m : M A) (k : A -> M B) (w w1 : World) (a : A) :
  m w = (Ok a, w1) -> bind m k w = k a w1.
Proof. intros H. unfold bind. rewrite H. reflexivity. Qed.

Lemma bind_raise {A B} (m : M A) (k : A -> M B) (w w1 : World) (e : exn) :
  m w = (Raise e, w1) -> bind m k w = (Raise e, w1).
Proof. intros H. unfold bind. rewrite H. reflexivity. Qed.

Section Runs.

Variable env : Env.

Lemma stamp_run (tracked : bool)
    (set : Q -> VoicePipelineMetrics -> VoicePipelineMetrics) (w : World) :
  exists w', stamp env tracked set w = (Ok tt, w')
             /\ trace w' = trace w /\ tts_calls w' = tts_calls w
             /\ (tracked = false -> w' = w).
Proof.
  destruct tracked; eexists; (split; [reflexivity|]); simpl; auto.
  repeat split. discriminate.
Qed.

Lemma synthesize_speech_run (text voice : str) (tracked : bool) (w : World) :
  exists w',
    synthesize_speech env text voice None tracked w
    = (Ok (synth_audio env (tts_calls w) text voice), w')
    /\ trace w' = trace w ++ synth_events env text voice
    /\ tts_calls w' = tts_calls w + synth_calls env
    /\ (tracked = false -> metrics w' = metrics w).
Proof.
  unfold synthesize_speech, synth_audio, synth_events, synth_calls.
  unfold stamp, when, bind, try_except, emit, call_elevenlabs, time_time,
    update_metrics, ret.
  destruct tracked; simpl;
    destruct (truthy_opt (ELEVENLABS_API_KEY env)); simpl;
    try destruct (elevenlabs env (tts_calls w) text voice); simpl;
    eexists; (split; [reflexivity|]); simpl;
    rewrite <- ?app_assoc; simpl; repeat split; auto; try lia; discriminate.
Qed.

Variable language : str.
Variable chunk_size : Z.

Lemma streaming_body_run (st : LoopState) (chunk : str) (w : World) :
  let buf := buffer st ++ [chunk] in
  let sent := if fires chunk_size buf chunk then [stripped buf] else [] in
  exists w',
    streaming_body env language chunk_size st chunk w
    = (Ok (mkLoop (response_chunks st ++ [chunk])
                  (if fires chunk_size buf chunk then [] else buf)
                  (audio_chunks st
                   ++ audios env (tts_calls w) (voice_for language) sent)), w')
    /\ trace w' = trace w ++ loop_events env (voice_for language) sent
    /\ tts_calls w' = tts_calls w + synth_calls env * List.length sent.
Proof.
  intros buf sent. subst sent. unfold streaming_body, fires. fold buf.
  fold (stripped buf).
  destruct ((chunk_size <=? len (join buf))%Z
            || endswith_any chunk terminators); simpl.
  - destruct (truthy (stripped buf)); simpl.
    + destruct (synthesize_speech_run (stripped buf) (voice_for language)
                  (match audio_chunks st with [] => true | _ :: _ => false end)
                  w) as (w' & Hrun & Htr & Hk & _).
      exists w'. rewrite (bind_ok _ _ _ _ _ Hrun).
      rewrite Htr, Hk, app_nil_r. repeat split. lia.
    + exists w. rewrite !app_nil_r. repeat split. lia.
  - exists w. rewrite !app_nil_r. repeat split. lia.
Qed.

Lemma audios_app (k : nat) (voice : str) (a b : list str) :
  audios env k voice (a ++ b)
  = audios env k voice a ++ audios env (k + synth_calls env * List.length a) voice b.
Proof.
  revert k. induction a as [|t a IH]; intros k; simpl.
  - f_equal. lia.
  - rewrite IH. do 3 f_equal. lia.
Qed.

Lemma loop_events_app (voice : str) (a b : list str) :
  loop_events env voice (a ++ b) = loop_events env voice a ++ loop_events env voice b.
Proof. apply flat_map_app. Qed.

Lemma text_stream_run (tracked : bool) (texts : list str) :
  forall (first_token : bool) (st : LoopState) (w : World),
    let sent := map stripped (blocks chunk_size (buffer st) texts) in
    exists st' w',
      text_stream env tracked (streaming_body env language chunk_size)
                  texts first_token st w = (Ok st', w')
      /\ response_chunks st' = response_chunks st ++ texts
      /\ buffer st' = leftover chunk_size (buffer st) texts
      /\ audio_chunks st'
         = audio_chunks st ++ audios env (tts_calls w) (voice_for language) sent
      /\ trace w' = trace w ++ loop_events env (voice_for language) sent
      /\ tts_calls w' = tts_calls w + synth_calls env * List.length sent.
Proof.
  induction texts as [|c rest IH]; intros first_token st w; simpl.
  - exists st, w. rewrite !app_nil_r. repeat split. lia.
  - destruct (stamp_run (first_token && tracked) set_llm_first_token w)
      as (w1 & Hs & Htr1 & Hk1 & _).
    destruct (streaming_body_run st c w1) as (w2 & Hb & Htr2 & Hk2).
    cbv zeta in Hb, Htr2, Hk2.
    set (st2 := mkLoop (response_chunks st ++ [c])
                  (if fires chunk_size (buffer st ++ [c]) c
                   then [] else buffer st ++ [c])
                  (audio_chunks st
                   ++ audios env (tts_calls w1) (voice_for language)
                        (if fires chunk_size (buffer st ++ [c]) c
                         then [stripped (buffer st ++ [c])] else []))) in *.
    destruct (IH (if first_token && tracked then false else first_token)
                 st2 w2) as (st' & w' & Hrun & Hr & Hbuf & Ha & Htr & Hk).
    exists st', w'.
    rewrite (bind_ok _ _ _ _ _ Hs), (bind_ok _ _ _ _ _ Hb), Hrun.
    rewrite Hr, Hbuf, Ha, Htr, Hk, Htr2, Hk2, Htr1. subst st2. simpl.
    rewrite !Hk1.
    destruct (fires chunk_size (buffer st ++ [c]) c); simpl;
      rewrite <- ?app_assoc; simpl; repeat split; try lia;
      rewrite ?Nat.mul_1_r, ?Nat.mul_0_r, ?Nat.add_0_r, ?app_nil_r;
      reflexivity.
Qed.

End Runs.

(** ** Running a whole request *)

Section Requests.

Variable env : Env.

Lemma transcribe_audio_run (audio_file language : str) (t : Transcription)
    (w : World) :
  truthy_opt (OPENAI_API_KEY env) = true ->
  whisper env audio_file (whisper_language language) = Ok t ->
  exists r w',
    transcribe_audio env audio_file (Some language) true w = (Ok r, w')
    /\ text r = tr_text t
    /\ trace w' = trace w ++ [CallWhisper audio_file (whisper_language language)]
    /\ tts_calls w' = tts_calls w.
Proof.
  intros Hkey Hw. unfold transcribe_audio, whisper_language in *.
  unfold stamp, when, bind, call_whisper, emit, time_time, update_metrics, ret.
  simpl. rewrite Hkey. simpl. rewrite Hw. simpl.
  eexists. eexists. split; [reflexivity|]. simpl. auto.
Qed.

Lemma retrieve_context_run (query : str) (video_id : option str)
    (tracked : bool) (w : World) :
  exists w',
    retrieve_context env query video_id tracked w
    = (Ok (placeholder_context query video_id), w')
    /\ trace w' = trace w /\ tts_calls w' = tts_calls w.
Proof.
  unfold retrieve_context.
  destruct (stamp_run env tracked set_rag_start w) as (w1 & H1 & T1 & K1 & _).
  destruct (stamp_run env tracked set_rag_end w1) as (w2 & H2 & T2 & K2 & _).
  exists w2. rewrite (bind_ok _ _ _ _ _ H1), (bind_ok _ _ _ _ _ H2).
  split; [reflexivity|]. split; congruence.
Qed.

Lemma stream_claude_response_run {S : Type} (user_message context : str)
    (tracked : bool) (body : S -> str -> M S) (s0 : S) (texts : list str)
    (w : World) :
  truthy_opt (ANTHROPIC_API_KEY env) = true ->
  claude env (full_message user_message context) = (texts, None) ->
  exists w1,
    trace w1 = trace w ++ [CallClaude (full_message user_message context)]
    /\ tts_calls w1 = tts_calls w
    /\ forall s' w2,
         text_stream env tracked body texts true s0 w1 = (Ok s', w2) ->
         exists w3,
           stream_claude_response env user_message context tracked body s0 w
           = (Ok s', w3)
           /\ trace w3 = trace w2 /\ tts_calls w3 = tts_calls w2.
Proof.
  intros Hkey Hc. unfold stream_claude_response.
  destruct (stamp_run env tracked set_llm_start w) as (wa & Ha & Ta & Ka & _).
  rewrite (bind_ok _ _ _ _ _ Ha), Hkey. simpl.
  unfold call_claude. rewrite Hc. simpl.
  set (w1 := mkWorld (metrics wa) (time_calls wa) (tts_calls wa)
                     (trace wa ++ [CallClaude (full_message user_message context)])).
  exists w1.
  split; [simpl; rewrite Ta; reflexivity|]. split; [exact Ka|].
  intros s' w2 Hrun.
  destruct (stamp_run env tracked set_llm_end w2) as (w3 & H3 & T3 & K3 & _).
  exists w3.
  assert (He : (emit (CallClaude (full_message user_message context)) ;;
                ret (texts, @None exn)) wa = (Ok (texts, None), w1))
    by reflexivity.
  rewrite (bind_ok _ _ _ _ _ He). simpl.
  rewrite (bind_ok _ _ _ _ _ Hrun), (bind_ok _ _ _ _ _ H3). auto.
Qed.

Lemma flush_remaining_run (language : str) (st : LoopState) (w : World) :
  exists w',
    flush_remaining env language st w
    = (Ok (mkLoop (response_chunks st) (buffer st)
                  (audio_chunks st
                   ++ audios env (tts_calls w) (voice_for language)
                        (trailing (buffer st)))), w')
    /\ trace w' = trace w ++ loop_events env (voice_for language)
                              (trailing (buffer st))
    /\ tts_calls w'
       = tts_calls w + synth_calls env * List.length (trailing (buffer st)).
Proof.
  unfold flush_remaining, trailing, stripped.
  destruct st as [rc buf ac]; simpl.
  destruct buf as [|b buf]; simpl.
  - exists w. rewrite !app_nil_r. repeat split. lia.
  - destruct (truthy (strip (join (b :: buf)))) eqn:E; simpl in E |- *;
      rewrite E; simpl.
    + destruct (synthesize_speech_run env (strip (b ++ join buf))
                  (voice_for language) false w) as (w' & Hrun & Htr & Hk & _).
      exists w'. rewrite (bind_ok _ _ _ _ _ Hrun).
      rewrite Htr, Hk, app_nil_r. repeat split. lia.
    + exists w. rewrite !app_nil_r. repeat split. lia.
Qed.

Lemma streaming_run (audio_file language : str) (video_id output_audio : option str)
    (chunk_size : Z) (user_message : str) (incs : list str) (w0 : World) :
  generation_yields env audio_file language video_id user_message incs ->
  exists st w1,
    voice_pipeline_streaming env audio_file language video_id output_audio
                             chunk_size w0
    = assemble env output_audio user_message st w1
    /\ response_chunks st = incs
    /\ audio_chunks st
       = audios env (tts_calls w0) (voice_for language)
                (chunk_texts chunk_size incs)
    /\ trace w1
       = trace w0
         ++ CallWhisper audio_file (whisper_language language)
         :: CallClaude (full_message user_message
                          (placeholder_context user_message video_id))
         :: loop_events env (voice_for language) (chunk_texts chunk_size incs).
Proof.
  intros (Hoa & Han & (t & Hw & Ht) & Hc).
  unfold voice_pipeline_streaming, voice_pipeline_streaming_with.
  unfold bind at 1. simpl.
  set (wa := mkWorld VoicePipelineMetrics_init (time_calls w0) (tts_calls w0)
                     (trace w0)).
  destruct (transcribe_audio_run audio_file language t wa Hoa Hw)
    as (r & wb & Hrun1 & Hr & Tb & Kb).
  rewrite (bind_ok _ _ _ _ _ Hrun1), Hr, Ht.
  destruct (retrieve_context_run user_message video_id true wb)
    as (wc & Hrun2 & Tc & Kc).
  rewrite (bind_ok _ _ _ _ _ Hrun2).
  destruct (stream_claude_response_run user_message
              (placeholder_context user_message video_id) true
              (streaming_body env language chunk_size) (mkLoop [] [] [])
              incs wc Han Hc) as (wd & Td & Kd & Hstream).
  destruct (text_stream_run env language chunk_size true incs true
              (mkLoop [] [] []) wd)
    as (st1 & we & Hrun3 & Hrc & Hbuf & Hau & Te & Ke).
  destruct (Hstream st1 we Hrun3) as (wf & Hrun4 & Tf & Kf).
  rewrite (bind_ok _ _ _ _ _ Hrun4).
  destruct (flush_remaining_run language st1 wf) as (wg & Hrun5 & Tg & Kg).
  rewrite (bind_ok _ _ _ _ _ Hrun5).
  eexists. exists wg. split; [reflexivity|]. simpl in *.
  unfold chunk_texts.
  rewrite audios_app, loop_events_app, length_map.
  rewrite Hrc, Hau, Hbuf, Tg, Tf, Te, Td, Tc, Tb, Kf, Ke, Kd, Kc, Kb.
  rewrite length_map. subst wa. simpl.
  rewrite <- !app_assoc. simpl. rewrite ?Hbuf. auto.
Qed.

End Requests.

(** ** Reading the trace of a run *)

Lemma dispatched_app (a b : list Event) :
  dispatched (a ++ b) = dispatched a ++ dispatched b.
Proof.
  induction a as [|e a IH]; simpl.
  - reflexivity.
  - destruct e; simpl; rewrite IH; reflexivity.
Qed.

Lemma elevenlabs_calls_app (a b : list Event) :
  elevenlabs_calls (a ++ b) = elevenlabs_calls a ++ elevenlabs_calls b.
Proof.
  induction a as [|e a IH]; simpl.
  - reflexivity.
  - destruct e; simpl; rewrite IH; reflexivity.
Qed.

Lemma dispatched_loop_events (env : Env) (voice : str) (texts : list str) :
  dispatched (loop_events env voice texts) = texts.
Proof.
  induction texts as [|t ts IH]; simpl.
  - reflexivity.
  - rewrite dispatched_app, IH.
    destruct (truthy_opt (ELEVENLABS_API_KEY env)); reflexivity.
Qed.


Lemma assemble_keeps_dispatches (env : Env) (output_audio : option str)
    (user_message : str) (st : LoopState) (w : World) :
  let w' := snd (assemble env output_audio user_message st w) in
  dispatched (trace w') = dispatched (trace w)
  /\ elevenlabs_calls (trace w') = elevenlabs_calls (trace w)
  /\ metrics w' = metrics w.
Proof.
  unfold assemble, when, call_write_file, get_metrics, bind, emit, ret, raise.
  destruct output_audio as [path|]; simpl.
  - destruct (truthy path && _); simpl.
    + destruct (write_file env path (concat (audio_chunks st))); simpl;
        rewrite dispatched_app, elevenlabs_calls_app, !app_nil_r; auto.
    + auto.
  - auto.
Qed.

Lemma assemble_run (env : Env) (output_audio : option str)
    (user_message : str) (st : LoopState) (w : World) :
  writes_succeed env \/ concat (audio_chunks st) = [] ->
  exists w',
    assemble env output_audio user_message st w
    = (Ok {| transcript := user_message;
             response := join (response_chunks st);
             audio_size := Z.of_nat (List.length (concat (audio_chunks st)));
             latency := report (metrics w) |}, w').
Proof.
  intros H.
  unfold assemble, when, call_write_file, get_metrics, bind, emit, ret, raise.
  destruct output_audio as [path|]; simpl.
  - destruct H as [H|H].
    + destruct (truthy path && _); simpl.
      * rewrite H. simpl. eexists. reflexivity.
      * eexists. reflexivity.
    + rewrite H, andb_false_r. simpl. eexists. reflexivity.
  - eexists. reflexivity.
Qed.

Lemma sample_env_yields (incs : list str) (video_id : option str) :
  generation_yields (sample_env incs) (lit "question.wav") (lit "en") video_id
                    (lit "What is RAG?") incs.
Proof.
  unfold generation_yields. simpl. repeat split.
  eexists. split; reflexivity.
Defined.


(** * The chunker (streaming mode) *)

Section ChunkerClaims.

Variable env : Env.
Variables audio_file language user_message : str.
Variables video_id output_audio : option str.
Variable chunk_size : Z.
Variable incs : list str.
Variable w0 : World.

Hypothesis Hgen :
  generation_yields env audio_file language video_id user_message incs.

Let run :=
  voice_pipeline_streaming env audio_file language video_id output_audio
                           chunk_size w0.

(** The texts a streaming request dispatches are [chunk_texts] of the
    increments, whatever the synthesizer and the file system do. *)
Lemma streaming_dispatches :
  dispatched (trace (snd run))
  = dispatched (trace w0) ++ chunk_texts chunk_size incs.
Proof.
  subst run.
  destruct (streaming_run env audio_file language video_id output_audio
              chunk_size user_message incs w0 Hgen)
    as (st & w1 & Hrun & _ & _ & Htr).
  rewrite Hrun.
  destruct (assemble_keeps_dispatches env output_audio user_message st w1)
    as (Hd & _ & _).
  rewrite Hd, Htr, dispatched_app. simpl.
  rewrite dispatched_loop_events. reflexivity.
Qed.

End ChunkerClaims.

Lemma chunk_texts_blocks (T : Z) (incs : list str) :
  exists (blks : list (list str)) (rest : list str),
    concat blks ++ rest = incs
    /\ chunk_texts T incs = map stripped blks
    /\ strip (join rest) = [].
Proof.
  pose proof (blocks_partition T incs []) as Hp. simpl in Hp.
  unfold chunk_texts, trailing.
  destruct (truthy (stripped (leftover T [] incs))) eqn:E.
  - exists (blocks T [] incs ++ [leftover T [] incs]), [].
    rewrite concat_app, map_app. simpl. rewrite !app_nil_r.
    repeat split; assumption.
  - exists (blocks T [] incs), (leftover T [] incs).
    rewrite app_nil_r. repeat split; [assumption|].
    apply truthy_false_iff, E.
Qed.

(** C1 (amended).  In a streaming request whose generation yields the
    increments [incs], no dispatched chunk has empty text; every chunk is
    the whitespace-stripped concatenation of a block of consecutive
    increments, the blocks covering the stream in order up to a remainder
    that is empty or whitespace only; hence the chunk texts concatenate to
    the increments' concatenation once whitespace is removed. *)
Theorem chunks_nonempty_and_cover_stream
    (env : Env) (audio_file language user_message : str)
    (video_id output_audio : option str) (chunk_size : Z) (incs : list str)
    (w0 : World) :
  generation_yields env audio_file language video_id user_message incs ->
  exists sent : list str,
    dispatched (trace (snd (voice_pipeline_streaming env audio_file language
                              video_id output_audio chunk_size w0)))
    = dispatched (trace w0) ++ sent
    /\ Forall (fun t => t <> []) sent
    /\ (exists (blks : list (list str)) (rest : list str),
          concat blks ++ rest = incs
          /\ sent = map (fun b => strip (join b)) blks
          /\ strip (join rest) = [])
    /\ remove_ws (concat sent) = remove_ws (join incs).
Proof.
  intros Hgen. exists (chunk_texts chunk_size incs).
  split; [eapply streaming_dispatches; eassumption|].
  split; [apply chunk_texts_nonempty|].
  split; [apply chunk_texts_blocks | apply remove_ws_chunk_texts].
Qed.

Lemma chunks_nonempty_and_cover_stream_witness :
  exists sent : list str,
    dispatched (trace (snd (voice_pipeline_streaming
                              (sample_env [lit "Hello"; lit " world."; lit " Bye"])
                              (lit "question.wav") (lit "en") None None 100
                              initial_world)))
    = dispatched (trace initial_world) ++ sent
    /\ Forall (fun t => t <> []) sent
    /\ (exists (blks : list (list str)) (rest : list str),
          concat blks ++ rest = [lit "Hello"; lit " world."; lit " Bye"]
          /\ sent = map (fun b => strip (join b)) blks
          /\ strip (join rest) = [])
    /\ remove_ws (concat sent)
       = remove_ws (join [lit "Hello"; lit " world."; lit " Bye"]).
Proof.
  apply (chunks_nonempty_and_cover_stream
           (sample_env [lit "Hello"; lit " world."; lit " Bye"])
           (lit "question.wav") (lit "en") (lit "What is RAG?")
           None None 100 [lit "Hello"; lit " world."; lit " Bye"]
           initial_world).
  apply sample_env_yields.
Defined.

(** C1 as stated fails: for the increments "Hello", " world.", " Bye" the
    chunk texts concatenate to "Hello world.Bye", not "Hello world. Bye". *)
Lemma chunk_concatenation_loses_whitespace :
  let incs := [lit "Hello"; lit " world."; lit " Bye"] in
  let w := snd (voice_pipeline_streaming (sample_env incs) (lit "question.wav")
                  (lit "en") None None 100 initial_world) in
  concat (dispatched (trace w)) = lit "Hello world.Bye"
  /\ concat (dispatched (trace w)) <> join incs.
Proof.
  split.
  - vm_compute. reflexivity.
  - vm_compute. discriminate.
Qed.

(** C2 (amended).  In a streaming request with threshold [chunk_size], the
    chunks dispatched inside the loop are the stripped texts of consecutive
    blocks of increments, each block closed by the increment that made the
    buffer reach the threshold or that ends with a terminator; such a chunk
    is shorter than the threshold (taken as at least 1) plus the length of
    that closing increment, with or without a terminator at its end.  What
    remains at stream end is dispatched, stripped, as a last chunk exactly
    when it has a character that is not whitespace, and it is then under
    the threshold and its last increment ends with no terminator. *)
Theorem chunk_overrun_within_closing_increment
    (env : Env) (audio_file language user_message : str)
    (video_id output_audio : option str) (chunk_size : Z) (incs : list str)
    (w0 : World) :
  generation_yields env audio_file language video_id user_message incs ->
  exists (blks : list (list str)) (rest : list str),
    concat blks ++ rest = incs
    /\ dispatched (trace (snd (voice_pipeline_streaming env audio_file language
                                 video_id output_audio chunk_size w0)))
       = dispatched (trace w0)
         ++ map (fun b => strip (join b)) blks
         ++ (if truthy (strip (join rest)) then [strip (join rest)] else [])
    /\ Forall (fun b =>
                 ((chunk_size <= len (join b))%Z
                  \/ endswith_any (last b []) terminators = true)
                 /\ (len (strip (join b))
                     < Z.max chunk_size 1 + len (last b []))%Z) blks
    /\ (strip (join rest) <> [] ->
        (len (strip (join rest)) < chunk_size)%Z
        /\ endswith_any (last rest []) terminators = false).
Proof.
  intros Hgen.
  exists (blocks chunk_size [] incs), (leftover chunk_size [] incs).
  destruct (blocks_sound chunk_size incs [] (kept_nil chunk_size)) as [Hb Hk].
  split; [apply (blocks_partition chunk_size incs [])|].
  split; [eapply streaming_dispatches; eassumption|].
  split.
  - eapply Forall_impl; [|exact Hb].
    intros b (_ & H1 & H2). split; assumption.
  - intros Hne. apply truthy_true_iff in Hne.
    destruct (Hk Hne) as [Hlt Hend]. split; [|exact Hend].
    pose proof (len_strip (join (leftover chunk_size [] incs))). lia.
Qed.

Lemma chunk_overrun_within_closing_increment_witness :
  exists (blks : list (list str)) (rest : list str),
    concat blks ++ rest = [lit "abcdefghij"; lit " "]
    /\ dispatched (trace (snd (voice_pipeline_streaming
                                 (sample_env [lit "abcdefghij"; lit " "])
                                 (lit "question.wav") (lit "en") None None 5
                                 initial_world)))
       = dispatched (trace initial_world)
         ++ map (fun b => strip (join b)) blks
         ++ (if truthy (strip (join rest)) then [strip (join rest)] else [])
    /\ Forall (fun b =>
                 ((5 <= len (join b))%Z
                  \/ endswith_any (last b []) terminators = true)
                 /\ (len (strip (join b)) < Z.max 5 1 + len (last b []))%Z) blks
    /\ (strip (join rest) <> [] ->
        (len (strip (join rest)) < 5)%Z
        /\ endswith_any (last rest []) terminators = false).
Proof.
  apply (chunk_overrun_within_closing_increment
           (sample_env [lit "abcdefghij"; lit " "])
           (lit "question.wav") (lit "en") (lit "What is RAG?")
           None None 5 [lit "abcdefghij"; lit " "] initial_world).
  apply sample_env_yields.
Defined.

(** C2 as stated fails: with threshold 5 and the increments "abcdefghij",
    " " the only chunk has 10 characters and ends with no terminator, and
    the buffer left at stream end, [" "], is not empty yet is not
    dispatched. *)
Lemma long_increment_overruns_threshold :
  let incs := [lit "abcdefghij"; lit " "] in
  let env := sample_env incs in
  let w := snd (voice_pipeline_streaming env (lit "question.wav") (lit "en")
                  None None 5 initial_world) in
  dispatched (trace w) = [lit "abcdefghij"]
  /\ (5 < len (lit "abcdefghij"))%Z
  /\ endswith_any (lit "abcdefghij") terminators = false
  /\ match fst (text_stream env true (streaming_body env (lit "en") 5) incs
                  true (mkLoop [] [] []) initial_world) with
     | Ok st => buffer st = [lit " "] /\ buffer st <> []
     | Raise _ => False
     end.
Proof.
  repeat split; try (vm_compute; reflexivity). vm_compute. discriminate.
Qed.

(** * The scenario "Hello", " world.", " Bye" *)

(** C3 (amended).  With threshold 100 the stream "Hello", " world.", " Bye"
    gives two chunks: "Hello world." with sequence number 0, dispatched as
    soon as " world." is appended (the loop over the first two increments
    already leaves an empty buffer and has dispatched it), and at stream
    end the rest of the buffer stripped of its leading blank, "Bye", with
    sequence number 1. *)
Theorem hello_world_bye_chunks
    (env : Env) (audio_file language user_message : str)
    (video_id output_audio : option str) :
  generation_yields env audio_file language video_id user_message
                    hello_world_bye ->
  emitted_chunks (trace (snd (voice_pipeline_streaming env audio_file language
                                video_id output_audio 100 initial_world)))
  = [mkChunk (lit "Hello world.") 0; mkChunk (lit "Bye") 1]
  /\ forall (tracked : bool) (w : World),
       exists st w',
         text_stream env tracked (streaming_body env language 100)
                     [lit "Hello"; lit " world."] true (mkLoop [] [] []) w
         = (Ok st, w')
         /\ buffer st = []
         /\ dispatched (trace w') = dispatched (trace w) ++ [lit "Hello world."].
Proof.
  intros Hgen. split.
  - unfold emitted_chunks.
    rewrite (streaming_dispatches env audio_file language user_message
               video_id output_audio 100 hello_world_bye initial_world Hgen).
    vm_compute. reflexivity.
  - intros tracked w.
    destruct (text_stream_run env language 100 tracked
                [lit "Hello"; lit " world."] true (mkLoop [] [] []) w)
      as (st & w' & Hrun & _ & Hbuf & _ & Htr & _).
    exists st, w'. split; [exact Hrun|]. split.
    + rewrite Hbuf. vm_compute. reflexivity.
    + rewrite Htr, dispatched_app, dispatched_loop_events.
      f_equal.
Qed.

Lemma hello_world_bye_chunks_witness :
  emitted_chunks (trace (snd (voice_pipeline_streaming
                                (sample_env hello_world_bye)
                                (lit "question.wav") (lit "en") None None 100
                                initial_world)))
  = [mkChunk (lit "Hello world.") 0; mkChunk (lit "Bye") 1]
  /\ forall (tracked : bool) (w : World),
       exists st w',
         text_stream (sample_env hello_world_bye) tracked
                     (streaming_body (sample_env hello_world_bye) (lit "en") 100)
                     [lit "Hello"; lit " world."] true (mkLoop [] [] []) w
         = (Ok st, w')
         /\ buffer st = []
         /\ dispatched (trace w') = dispatched (trace w) ++ [lit "Hello world."].
Proof.
  apply (hello_world_bye_chunks (sample_env hello_world_bye)
           (lit "question.wav") (lit "en") (lit "What is RAG?") None None).
  apply sample_env_yields.
Defined.

(** C3 as stated fails: the second chunk's text is "Bye", not " Bye". *)
Lemma trailing_chunk_is_stripped :
  emitted_chunks (trace (snd (voice_pipeline_streaming
                                (sample_env hello_world_bye)
                                (lit "question.wav") (lit "en") None None 100
                                initial_world)))
  <> [mkChunk (lit "Hello world.") 0; mkChunk (lit " Bye") 1].
Proof. vm_compute. discriminate. Qed.

(** * Synthesis: missing credential and provider errors *)

Section Synthesis.

Variable env : Env.

Lemma synthesize_speech_no_key (text voice : str) (output_file : option str)
    (tracked : bool) (w : World) :
  truthy_opt (ELEVENLABS_API_KEY env) = false ->
  exists w',
    synthesize_speech env text voice output_file tracked w = (Ok [], w')
    /\ trace w' = trace w ++ [Synthesize text voice].
Proof.
  intros Hkey. unfold synthesize_speech.
  destruct (stamp_run env tracked set_tts_start w) as (w1 & H1 & T1 & _).
  rewrite (bind_ok _ _ _ _ _ H1), Hkey. simpl.
  eexists. split; [reflexivity|]. simpl. rewrite T1. reflexivity.
Qed.

(** [synthesize_speech] never raises; a provider error gives empty bytes. *)
Lemma synthesize_speech_total (text voice : str) (output_file : option str)
    (tracked : bool) (w : World) :
  exists b w',
    synthesize_speech env text voice output_file tracked w = (Ok b, w')
    /\ forall e, elevenlabs env (tts_calls w) text voice = Raise e -> b = [].
Proof.
  unfold synthesize_speech, stamp, when, bind, try_except, emit,
    call_elevenlabs, call_write_file, time_time, update_metrics, ret, raise.
  destruct tracked; simpl;
    destruct (truthy_opt (ELEVENLABS_API_KEY env)); simpl;
    try (destruct (elevenlabs env (tts_calls w) text voice) as [b|e]; simpl;
         [destruct output_file as [path|]; simpl;
          [destruct (truthy path); simpl;
           [destruct (write_file env path b); simpl|]|]|]);
    eexists; eexists; (split; [reflexivity|]);
    intros e0 He; try discriminate He; reflexivity.
Qed.

Lemma text_stream_collect (tracked : bool) (texts : list str) :
  forall (first_token : bool) (acc : list str) (w : World),
    exists w',
      text_stream env tracked (fun acc chunk => ret (acc ++ [chunk]))
                  texts first_token acc w = (Ok (acc ++ texts), w')
      /\ trace w' = trace w /\ tts_calls w' = tts_calls w.
Proof.
  induction texts as [|c rest IH]; intros first_token acc w; simpl.
  - exists w. rewrite app_nil_r. auto.
  - destruct (stamp_run env (first_token && tracked) set_llm_first_token w)
      as (w1 & H1 & T1 & K1 & _).
    destruct (IH (if first_token && tracked then false else first_token)
                 (acc ++ [c]) w1) as (w' & Hrun & T' & K').
    exists w'. rewrite (bind_ok _ _ _ _ _ H1). unfold bind at 1, ret at 1.
    rewrite Hrun, <- app_assoc. simpl. split; [reflexivity|].
    split; congruence.
Qed.

Lemma concat_audios_no_key (k : nat) (voice : str) (texts : list str) :
  truthy_opt (ELEVENLABS_API_KEY env) = false ->
  concat (audios env k voice texts) = [].
Proof.
  intros Hkey. revert k.
  induction texts as [|t ts IH]; intros k; simpl.
  - reflexivity.
  - unfold synth_audio at 1. rewrite Hkey. simpl. apply IH.
Qed.

End Synthesis.

Lemma simple_run (env : Env) (audio_file language : str)
    (video_id output_audio : option str) (user_message : str)
    (incs : list str) (w0 : World) :
  generation_yields env audio_file language video_id user_message incs ->
  exists w1,
    voice_pipeline_simple env audio_file language video_id output_audio w0
    = (audio <- synthesize_speech env (join incs) (voice_for language)
                  output_audio true ;;
       m <- get_metrics ;;
       ret {| transcript := user_message;
              response := join incs;
              audio_size := Z.of_nat (List.length audio);
              latency := report m |}) w1
    /\ trace w1
       = trace w0
         ++ [CallWhisper audio_file (whisper_language language);
             CallClaude (full_message user_message
                           (placeholder_context user_message video_id))]
    /\ tts_calls w1 = tts_calls w0.
Proof.
  intros (Hoa & Han & (t & Hw & Ht) & Hc).
  unfold voice_pipeline_simple, voice_pipeline_simple_with.
  unfold bind at 1. simpl.
  set (wa := mkWorld VoicePipelineMetrics_init (time_calls w0) (tts_calls w0)
                     (trace w0)).
  destruct (transcribe_audio_run env audio_file language t wa Hoa Hw)
    as (r & wb & Hrun1 & Hr & Tb & Kb).
  rewrite (bind_ok _ _ _ _ _ Hrun1), Hr, Ht.
  destruct (retrieve_context_run env user_message video_id true wb)
    as (wc & Hrun2 & Tc & Kc).
  rewrite (bind_ok _ _ _ _ _ Hrun2).
  destruct (stream_claude_response_run env user_message
              (placeholder_context user_message video_id) true
              (fun acc chunk => ret (acc ++ [chunk])) [] incs wc Han Hc)
    as (wd & Td & Kd & Hstream).
  destruct (text_stream_collect env true incs true [] wd)
    as (we & Hrun3 & Te & Ke).
  destruct (Hstream _ _ Hrun3) as (wf & Hrun4 & Tf & Kf).
  rewrite (bind_ok _ _ _ _ _ Hrun4). simpl.
  exists wf. split; [reflexivity|].
  rewrite Tf, Te, Td, Tc, Tb, Kf, Ke, Kd, Kc, Kb. subst wa. simpl.
  rewrite <- app_assoc. auto.
Qed.







(** * Retrieval *)

Lemma placeholder_context_nonempty (query : str) (video_id : option str) :
  placeholder_context query video_id <> [].
Proof.
  unfold placeholder_context. intros H.
  apply app_eq_nil in H as [H _]. vm_compute in H. discriminate H.
Qed.

(** Under a standard output that accepts every line the two [print] calls
    do nothing: [retrieve_context] is [retrieve_context_printing] there. *)
Lemma retrieve_context_printing_accepted (env : Env) (q : str)
    (v : option str) (tracked : bool) (w : World) :
  retrieve_context_printing env accepting_stdout q v tracked w
  = retrieve_context env q v tracked w.
Proof.
  unfold retrieve_context_printing, retrieve_context, print_line,
    accepting_stdout, stamp, when, bind, ret.
  destruct tracked; reflexivity.
Qed.

(** C10 (amended).  For every query [q], every optional scope id [v] and
    every standard output, [retrieve_context] adds nothing to the trace of
    calls (it contacts no provider); if [print] raises on its first
    progress line, which shows the first 50 characters of [q], or else on
    its second, that exception is what the call raises; otherwise it
    returns "Context for query: 'q' (video: s)" where s is [v] if [v] is
    supplied and not the empty string, and "all" otherwise.  That string is
    never empty. *)
Theorem retrieve_context_placeholder_unless_print_raises
    (env : Env) (stdout : str -> option exn) (q : str) (v : option str)
    (tracked : bool) (w : World) :
  let context :=
    lit "Context for query: '" ++ q ++ lit "' (video: "
    ++ match v with
       | Some (c :: s) => c :: s
       | _ => lit "all"
       end ++ lit ")" in
  let run := retrieve_context_printing env stdout q v tracked w in
  trace (snd run) = trace w
  /\ context <> []
  /\ fst run
     = match stdout (retrieving_line q) with
       | Some e => Raise e
       | None =>
           match stdout (retrieved_line context) with
           | Some e => Raise e
           | None => Ok context
           end
       end.
Proof.
  cbv zeta.
  assert (Hctx : lit "Context for query: '" ++ q ++ lit "' (video: "
                 ++ match v with
                    | Some (c :: s) => c :: s
                    | _ => lit "all"
                    end ++ lit ")"
                 = placeholder_context q v).
  { unfold placeholder_context, or_all. destruct v as [[|c s]|]; reflexivity. }
  rewrite Hctx.
  split; [|split; [apply placeholder_context_nonempty|]];
    unfold retrieve_context_printing, print_line, stamp, when, bind,
      time_time, update_metrics, ret, raise;
    destruct tracked; simpl;
    destruct (stdout (retrieving_line q)); simpl;
    try destruct (stdout (retrieved_line (placeholder_context q v))); simpl;
    reflexivity.
Qed.

(** C10 as stated fails twice.  For a scope id that is supplied but empty
    the placeholder names "all", not the empty id.  And the call raises for
    a query its first progress line cannot be printed with: a lone
    surrogate on a UTF-8 standard output. *)
Lemma retrieve_context_empty_scope_and_unprintable_query :
  let env := sample_env [] in
  let r := fst (retrieve_context_printing env accepting_stdout (lit "q")
                  (Some []) false initial_world) in
  r = Ok (lit "Context for query: 'q' (video: all)")
  /\ r <> Ok (lit "Context for query: 'q' (video: )")
  /\ fst (retrieve_context_printing env utf8_stdout [55296%N] None false
            initial_world)
     = Raise (ValueError
                (lit "'utf-8' codec can't encode character: surrogates not allowed")).
Proof.
  split; [|split].
  - vm_compute. reflexivity.
  - vm_compute. discriminate.
  - vm_compute. reflexivity.
Qed.




(** * Missing transcription or generation credential *)

(** C7 (amended).  A missing (unset or empty) OPENAI_API_KEY or
    ANTHROPIC_API_KEY is fatal, in both modes, but it is detected inside the
    stage that needs the credential, not before the stages run.  Without
    the transcription credential the request raises [ValueError] with only
    [stt_start] recorded and no provider contacted.  With it, Whisper
    answering, and without the generation credential, the request raises
    [ValueError] after transcription and retrieval have run: Whisper was
    called, and [stt_start], [stt_end], [rag_start], [rag_end] and
    [llm_start] are recorded; Claude and the synthesizer are not reached. *)
Theorem missing_credential_raises_inside_its_stage
    (env : Env) (stream : bool) (audio_file language : str)
    (video_id output_audio : option str) (chunk_size : Z) (w0 : World) :
  let run := run_pipeline env stream audio_file language video_id output_audio
                          chunk_size w0 in
  let t := fun n => clock env (time_calls w0 + n) in
  (truthy_opt (OPENAI_API_KEY env) = false ->
   fst run = Raise (ValueError
                      (lit "OPENAI_API_KEY environment variable not set"))
   /\ trace (snd run) = trace w0
   /\ metrics (snd run)
      = mkMetrics (t 0) 0%Q 0%Q 0%Q 0%Q 0%Q 0%Q 0%Q 0%Q)
  /\ (truthy_opt (OPENAI_API_KEY env) = true ->
      (exists tr, whisper env audio_file (whisper_language language) = Ok tr) ->
      truthy_opt (ANTHROPIC_API_KEY env) = false ->
      fst run = Raise (ValueError
                         (lit "ANTHROPIC_API_KEY environment variable not set"))
      /\ trace (snd run)
         = trace w0 ++ [CallWhisper audio_file (whisper_language language)]
      /\ metrics (snd run)
         = mkMetrics (t 0) (t 1) (t 2) (t 3) (t 4) 0%Q 0%Q 0%Q 0%Q).
Proof.
  cbv zeta. split.
  - intros Hkey.
    destruct stream;
      unfold run_pipeline, voice_pipeline_streaming, voice_pipeline_simple,
        voice_pipeline_streaming_with, voice_pipeline_simple_with,
        transcribe_audio, new_metrics, stamp, when, bind, time_time,
        update_metrics, ret, raise;
      simpl; rewrite Hkey; simpl; rewrite Nat.add_0_r; auto.
  - intros Hoa (tr & Hw) Han. unfold whisper_language in *.
    destruct stream;
      unfold run_pipeline, voice_pipeline_streaming, voice_pipeline_simple,
        voice_pipeline_streaming_with, voice_pipeline_simple_with,
        transcribe_audio, retrieve_context, stream_claude_response,
        call_whisper, new_metrics, stamp, when, bind, emit, time_time,
        update_metrics, ret, raise;
      simpl; rewrite Hoa; simpl; rewrite Hw; simpl; rewrite Han; simpl;
      rewrite Nat.add_0_r, !Nat.add_succ_r, Nat.add_0_r; auto.
Qed.

Lemma missing_credential_raises_inside_its_stage_witness :
  (let run := run_pipeline no_openai_env true (lit "question.wav") (lit "en")
                None None 200 initial_world in
   fst run = Raise (ValueError
                      (lit "OPENAI_API_KEY environment variable not set"))
   /\ trace (snd run) = []
   /\ metrics (snd run)
      = mkMetrics (inject_Z 1000) 0%Q 0%Q 0%Q 0%Q 0%Q 0%Q 0%Q 0%Q)
  /\ (let run := run_pipeline no_anthropic_env true (lit "question.wav")
                   (lit "en") None None 200 initial_world in
      fst run = Raise (ValueError
                         (lit "ANTHROPIC_API_KEY environment variable not set"))
      /\ trace (snd run) = [CallWhisper (lit "question.wav") (Some (lit "en"))]
      /\ metrics (snd run)
         = mkMetrics (inject_Z 1000) (inject_Z 1001) (inject_Z 1002)
                     (inject_Z 1003) (inject_Z 1004) 0%Q 0%Q 0%Q 0%Q).
Proof.
  split.
  - apply (proj1 (missing_credential_raises_inside_its_stage no_openai_env true
                    (lit "question.wav") (lit "en") None None 200
                    initial_world)).
    reflexivity.
  - apply (proj2 (missing_credential_raises_inside_its_stage no_anthropic_env
                    true (lit "question.wav") (lit "en") None None 200
                    initial_world)).
    + reflexivity.
    + eexists. reflexivity.
    + reflexivity.
Defined.

(** C7 as stated fails: when the transcription credential is missing the
    request has already recorded [stt_start] when it raises; when the
    generation credential is missing, transcription has run and Whisper has
    been called before the request raises. *)
Lemma credential_checked_after_stage_start :
  let a := snd (run_pipeline no_openai_env true (lit "question.wav") (lit "en")
                  None None 200 initial_world) in
  let b := snd (run_pipeline no_anthropic_env true (lit "question.wav")
                  (lit "en") None None 200 initial_world) in
  stt_start (metrics a) = inject_Z 1000
  /\ metrics a <> VoicePipelineMetrics_init
  /\ external_calls (trace b)
     = [CallWhisper (lit "question.wav") (Some (lit "en"))]
  /\ metrics b <> VoicePipelineMetrics_init.
Proof.
  repeat split; try (vm_compute; reflexivity); vm_compute; discriminate.
Qed.

(** * Synthesis timing *)


(** C8 (the code at the failing input).  For the one-increment stream
    "Hello" with threshold 200 the only chunk is the one flushed at stream
    end; it is synthesized (the provider is called with "Hello" and 5 bytes
    come back) but [tts_start] and [tts_end] stay at 0, so the report gives
    0 for the synthesis and the end-to-end latency.  For "Hello", " world.",
    " Bye" the first chunk is dispatched inside the loop and is timed
    (clock readings 6 and 7 of the request). *)
Theorem trailing_first_chunk_is_not_timed :
  let short := voice_pipeline_streaming (sample_env [lit "Hello"])
                 (lit "question.wav") (lit "en") None None 200 initial_world in
  let long := voice_pipeline_streaming (sample_env hello_world_bye)
                (lit "question.wav") (lit "en") None None 100 initial_world in
  elevenlabs_calls (trace (snd short)) = [lit "Hello"]
  /\ tts_start (metrics (snd short)) = 0%Q
  /\ tts_end (metrics (snd short)) = 0%Q
  /\ (exists r, fst short = Ok r
                /\ audio_size r = 5%Z
                /\ tts_latency_ms (latency r) = 0%Q
                /\ total_latency_ms (latency r) = 0%Q)
  /\ elevenlabs_calls (trace (snd long)) = [lit "Hello world."; lit "Bye"]
  /\ tts_start (metrics (snd long)) = inject_Z 1006
  /\ tts_end (metrics (snd long)) = inject_Z 1007.
Proof.
  repeat split; try (vm_compute; reflexivity).
  eexists. split; [vm_compute; reflexivity|].
  repeat split; vm_compute; reflexivity.
Qed.

(** * The latency report *)

(** C9.  For every metrics state and each of the stt, rag, llm and tts
    stages, if the stage's end timestamp is unset (still the initial 0) the
    report gives 0 milliseconds for that stage's duration. *)
Theorem report_is_zero_for_unset_end (m : VoicePipelineMetrics) (s : Stage) :
  stage_end s m = 0%Q -> stage_latency_ms s (report m) = 0%Q.
Proof.
  intros H. destruct s; simpl in *; rewrite H; reflexivity.
Qed.

Lemma report_is_zero_for_unset_end_witness :
  stage_latency_ms TTS
    (report (metrics (snd (run_pipeline no_anthropic_env true
                             (lit "question.wav") (lit "en") None None 200
                             initial_world)))) = 0%Q.
Proof.
  apply (report_is_zero_for_unset_end
           (metrics (snd (run_pipeline no_anthropic_env true
                            (lit "question.wav") (lit "en") None None 200
                            initial_world))) TTS).
  reflexivity.
Defined.

(** * Further properties of the module *)

(** ** More on stripping *)

Lemma lstrip_head (s r : str) (c : char) :
  lstrip s = c :: r -> is_space c = false.
Proof.
  induction s as [|x s IH]; simpl; [discriminate|].
  destruct (is_space x) eqn:E; [exact IH|].
  intros H. injection H as <- _. exact E.
Qed.

Lemma lstrip_decompose (s : str) :
  exists ws, s = ws ++ lstrip s /\ forallb is_space ws = true.
Proof.
  induction s as [|x s (ws & Hs & Hws)]; simpl.
  - exists []. auto.
  - destruct (is_space x) eqn:E.
    + exists (x :: ws). simpl. rewrite E, Hws, <- Hs. auto.
    + exists []. auto.
Qed.

Lemma lstrip_fixed (s : str) :
  (forall c r, s = c :: r -> is_space c = false) -> lstrip s = s.
Proof.
  destruct s as [|c r]; simpl; [reflexivity|].
  intros H. rewrite (H c r eq_refl). reflexivity.
Qed.

Lemma lstrip_idempotent (s : str) : lstrip (lstrip s) = lstrip s.
Proof.
  apply lstrip_fixed. intros c r H. eapply lstrip_head, H.
Qed.

Lemma strip_idempotent (s : str) : strip (strip s) = strip s.
Proof.
  assert (HA : lstrip (strip s) = strip s).
  { unfold strip, rstrip. apply lstrip_fixed. intros c r Hc.
    destruct (lstrip_decompose (rev (lstrip s))) as (ws & Hd & _).
    apply (f_equal (@rev char)) in Hd.
    rewrite rev_involutive, rev_app_distr, Hc in Hd. simpl in Hd.
    eapply lstrip_head, Hd. }
  unfold strip at 1. rewrite HA.
  unfold strip, rstrip. rewrite rev_involutive, lstrip_idempotent.
  reflexivity.
Qed.

Lemma lstrip_snoc (s : str) (t : char) :
  is_space t = false -> lstrip (s ++ [t]) = lstrip s ++ [t].
Proof.
  intros Ht. induction s as [|x s IH]; simpl.
  - rewrite Ht. reflexivity.
  - destruct (is_space x); [exact IH | reflexivity].
Qed.

Lemma strip_snoc (s : str) (t : char) :
  is_space t = false -> strip (s ++ [t]) = lstrip s ++ [t].
Proof.
  intros Ht. unfold strip, rstrip.
  rewrite (lstrip_snoc s t Ht), rev_app_distr. simpl. rewrite Ht.
  simpl. rewrite rev_involutive. reflexivity.
Qed.

Lemma terminator_not_space (c : char) :
  char_in c (lit ".!?") = true -> is_space c = false.
Proof.
  unfold char_in, char_eqb. cbn [existsb lit map String.list_ascii_of_string].
  intros H. repeat (apply orb_true_iff in H as [H|H]);
    try (apply N.eqb_eq in H; subst c; reflexivity).
  discriminate H.
Qed.

Lemma no_terminator_lstrip (s : str) :
  no_terminator s -> no_terminator (lstrip s).
Proof.
  unfold no_terminator. induction s as [|x s IH]; simpl; intros H.
  - constructor.
  - destruct (is_space x); [|exact H].
    apply IH. inversion H. assumption.
Qed.

Lemma no_terminator_strip (s : str) :
  no_terminator s -> no_terminator (strip s).
Proof.
  intros H. unfold strip, rstrip.
  apply Forall_rev, no_terminator_lstrip, Forall_rev, no_terminator_lstrip, H.
Qed.

Lemma concat_filter_truthy (l : list str) :
  concat (filter truthy l) = concat l.
Proof.
  induction l as [|x l IH]; simpl.
  - reflexivity.
  - destruct x; simpl; rewrite IH; reflexivity.
Qed.

(** ** Sentence splitting *)

Lemma split_loop_spec (text : str) :
  forall (current : str) (sentences : list str),
    no_terminator current ->
    exists closed,
      fst (split_loop text current sentences) = sentences ++ closed
      /\ Forall (fun s => closed_sentence s /\ strip s = s) closed
      /\ no_terminator (snd (split_loop text current sentences))
      /\ remove_ws (concat closed)
         ++ remove_ws (snd (split_loop text current sentences))
         = remove_ws current ++ remove_ws text
      /\ (no_terminator text ->
          closed = []
          /\ snd (split_loop text current sentences) = current ++ text).
Proof.
  induction text as [|c rest IH]; intros current sentences Hcur;
    cbn [split_loop fst snd].
  - exists []. rewrite !app_nil_r. repeat split; auto.
  - destruct (char_in c (lit ".!?")) eqn:Hc.
    + destruct (IH [] (sentences ++ [strip (current ++ [c])]) (Forall_nil _))
        as (closed & Hfst & Hall & Hno & Hws & _).
      exists (strip (current ++ [c]) :: closed).
      rewrite Hfst, <- app_assoc. split; [reflexivity|].
      pose proof (terminator_not_space c Hc) as Hsp.
      split.
      * constructor; [|exact Hall]. split.
        -- exists (lstrip current), c. rewrite (strip_snoc _ _ Hsp).
           split; [reflexivity|]. split; [exact Hc|].
           apply no_terminator_lstrip, Hcur.
        -- apply strip_idempotent.
      * split; [exact Hno|]. split.
        -- cbn [concat].
           rewrite remove_ws_app, <- app_assoc, Hws, remove_ws_strip.
           rewrite remove_ws_app.
           change (c :: rest) with ([c] ++ rest).
           rewrite (remove_ws_app [c] rest), <- app_assoc. reflexivity.
        -- intros Hterm. inversion Hterm as [|? ? Hc' _]. congruence.
    + assert (Hcur' : no_terminator (current ++ [c])).
      { apply Forall_app. split; [exact Hcur|]. constructor; [exact Hc|constructor]. }
      destruct (IH (current ++ [c]) sentences Hcur')
        as (closed & Hfst & Hall & Hno & Hws & Hplain).
      exists closed. split; [exact Hfst|]. split; [exact Hall|].
      split; [exact Hno|]. split.
      * rewrite Hws, remove_ws_app, <- app_assoc.
        change (c :: rest) with ([c] ++ rest).
        rewrite (remove_ws_app [c] rest). reflexivity.
      * intros Hterm. inversion Hterm as [|? ? _ Hrest]. subst.
        destruct (Hplain Hrest) as [H1 H2]. split; [exact H1|].
        rewrite H2, <- app_assoc. reflexivity.
Qed.

Lemma filter_truthy_closed (closed : list str) :
  Forall (fun s => closed_sentence s /\ strip s = s) closed ->
  filter truthy closed = closed.
Proof.
  induction 1 as [|s l [(body & c & -> & _) _] _ IH]; simpl.
  - reflexivity.
  - destruct (body ++ [c]) eqn:E.
    + destruct body; discriminate E.
    + simpl. rewrite IH. reflexivity.
Qed.

(** The sentences as the closed ones followed by what remains. *)
Lemma split_into_sentences_shape (text : str) :
  exists closed rest,
    split_into_sentences text
    = closed ++ (if truthy (strip rest) then [strip rest] else [])
    /\ Forall (fun s => closed_sentence s /\ strip s = s) closed
    /\ no_terminator rest
    /\ remove_ws (concat closed) ++ remove_ws rest = remove_ws text
    /\ (no_terminator text -> closed = [] /\ rest = text).
Proof.
  destruct (split_loop_spec text [] [] (Forall_nil _))
    as (closed & Hfst & Hall & Hno & Hws & Hplain).
  exists closed, (snd (split_loop text [] [])).
  unfold split_into_sentences. rewrite Hfst. simpl in *.
  split; [|auto].
  destruct (snd (split_loop text [] [])) as [|x r] eqn:E.
  - rewrite app_nil_r. apply filter_truthy_closed, Hall.
  - rewrite filter_app, (filter_truthy_closed _ Hall). simpl.
    destruct (truthy (strip (x :: r))); reflexivity.
Qed.

(** X1.  [split_into_sentences] never returns an empty sentence, and every
    sentence it returns is stripped: it neither starts nor ends with
    whitespace. *)
Theorem split_sentences_nonempty_and_stripped (text : str) :
  Forall (fun s => s <> [] /\ strip s = s) (split_into_sentences text).
Proof.
  destruct (split_into_sentences_shape text)
    as (closed & rest & -> & Hall & _).
  apply Forall_app. split.
  - eapply Forall_impl; [|exact Hall].
    intros s [(body & c & -> & _) Hs]. split; [|exact Hs].
    destruct body; discriminate.
  - destruct (truthy (strip rest)) eqn:E; constructor; [|constructor].
    split; [apply truthy_true_iff, E | apply strip_idempotent].
Qed.

(** X2.  [split_into_sentences] loses no visible text: the sentences
    concatenate to the input once whitespace is removed from both. *)
Theorem split_sentences_keep_visible_text (text : str) :
  remove_ws (concat (split_into_sentences text)) = remove_ws text.
Proof.
  destruct (split_into_sentences_shape text)
    as (closed & rest & -> & _ & _ & Hws & _).
  rewrite concat_app, remove_ws_app, <- Hws. f_equal.
  destruct (truthy (strip rest)) eqn:E; simpl.
  - rewrite app_nil_r. apply remove_ws_strip.
  - apply truthy_false_iff in E. symmetry. apply remove_ws_all_space, E.
Qed.

(** X3.  In the result of [split_into_sentences] a terminator ('.', '!' or
    '?') only ever closes a sentence: every sentence but possibly the last
    ends with a terminator and has none before it, and the last one, if it
    does not end with a terminator, contains none at all. *)
Theorem split_sentences_end_at_terminators (text : str) :
  exists closed last,
    split_into_sentences text = closed ++ last
    /\ Forall closed_sentence closed
    /\ (last = [] \/ exists s, last = [s] /\ s <> [] /\ no_terminator s).
Proof.
  destruct (split_into_sentences_shape text)
    as (closed & rest & Hshape & Hall & Hno & _).
  exists closed, (if truthy (strip rest) then [strip rest] else []).
  split; [exact Hshape|]. split.
  - eapply Forall_impl; [|exact Hall]. intros s [H _]. exact H.
  - destruct (truthy (strip rest)) eqn:E; [right | left; reflexivity].
    exists (strip rest). split; [reflexivity|].
    split; [apply truthy_true_iff, E | apply no_terminator_strip, Hno].
Qed.

(** X4.  A text without terminator is returned as one stripped sentence,
    and as no sentence at all when it is empty or whitespace only. *)
Theorem split_text_without_terminator (text : str) :
  no_terminator text ->
  split_into_sentences text
  = if truthy (strip text) then [strip text] else [].
Proof.
  intros H.
  destruct (split_into_sentences_shape text)
    as (closed & rest & Hshape & _ & _ & _ & Hplain).
  destruct (Hplain H) as [-> ->]. exact Hshape.
Qed.

Lemma split_text_without_terminator_witness :
  split_into_sentences (lit "  so, let us see ") = [lit "so, let us see"]
  /\ split_into_sentences (lit "   ") = [].
Proof.
  split.
  - rewrite (split_text_without_terminator (lit "  so, let us see ")).
    + reflexivity.
    + repeat constructor.
  - rewrite (split_text_without_terminator (lit "   ")).
    + reflexivity.
    + repeat constructor.
Defined.

(** ** The report printed by [main] *)

Lemma rebuild_metrics_slots (r : LatencyReport) :
  slots (rebuild_metrics r)
  = set_llm_first_token (llm_first_token_ms r / 1000)%Q
      VoicePipelineMetrics_init.
Proof. destruct r. vm_compute. reflexivity. Qed.

(** X5.  The latency report [main] prints after a run shows 0 for the
    transcription, retrieval, total generation, synthesis and end-to-end
    figures whatever the pipeline measured: of the six keys of the result's
    metrics only "llm_first_token_ms" is renamed to an attribute that
    [report] reads, so only the first-token figure survives (equal to the
    measured one as a rational number). *)
Theorem printed_report_keeps_only_first_token (r : LatencyReport) :
  stt_latency_ms (printed_report r) = 0%Q
  /\ rag_latency_ms (printed_report r) = 0%Q
  /\ llm_total_ms (printed_report r) = 0%Q
  /\ tts_latency_ms (printed_report r) = 0%Q
  /\ total_latency_ms (printed_report r) = 0%Q
  /\ (llm_first_token_ms (printed_report r) == llm_first_token_ms r)%Q.
Proof.
  unfold printed_report. rewrite rebuild_metrics_slots.
  repeat (split; [reflexivity|]).
  unfold report, set_llm_first_token, nonzero. simpl.
  destruct (Qeq_bool (llm_first_token_ms r / 1000) 0) eqn:E; simpl.
  - apply Qeq_bool_eq in E.
    assert (H : (llm_first_token_ms r == llm_first_token_ms r / 1000 * 1000)%Q)
      by (field).
    rewrite H, E. reflexivity.
  - field.
Qed.

(** ** A request up to its first increment *)

Lemma streaming_prefix (env : Env) (audio_file language : str)
    (video_id output_audio : option str) (chunk_size : Z) (t : Transcription)
    (incs : list str) (outcome : option exn) (w0 : World) :
  truthy_opt (OPENAI_API_KEY env) = true ->
  whisper env audio_file (whisper_language language) = Ok t ->
  truthy_opt (ANTHROPIC_API_KEY env) = true ->
  claude env (full_message (tr_text t)
                (placeholder_context (tr_text t) video_id)) = (incs, outcome) ->
  voice_pipeline_streaming env audio_file language video_id output_audio
                           chunk_size w0
  = (st <- (s <- text_stream env true (streaming_body env language chunk_size)
                   incs true (mkLoop [] [] []) ;;
            end_of_stream env outcome s) ;;
     st' <- flush_remaining env language st ;;
     assemble env output_audio (tr_text t) st')
      (loop_start env audio_file language (tr_text t) video_id w0).
Proof.
  intros Hoa Hw Han Hc. unfold whisper_language in Hw.
  unfold voice_pipeline_streaming, voice_pipeline_streaming_with,
    transcribe_audio, retrieve_context, stream_claude_response, call_whisper,
    call_claude, new_metrics, end_of_stream, loop_start, whisper_language.
  unfold stamp, when, bind, emit, time_time, update_metrics, ret, raise.
  simpl. rewrite Hoa. simpl. rewrite Hw. simpl. rewrite Han. simpl.
  rewrite Hc. simpl. reflexivity.
Qed.

Lemma simple_prefix (env : Env) (audio_file language : str)
    (video_id output_audio : option str) (t : Transcription)
    (incs : list str) (outcome : option exn) (w0 : World) :
  truthy_opt (OPENAI_API_KEY env) = true ->
  whisper env audio_file (whisper_language language) = Ok t ->
  truthy_opt (ANTHROPIC_API_KEY env) = true ->
  claude env (full_message (tr_text t)
                (placeholder_context (tr_text t) video_id)) = (incs, outcome) ->
  voice_pipeline_simple env audio_file language video_id output_audio w0
  = (response_chunks <-
       (s <- text_stream env true (fun acc chunk => ret (acc ++ [chunk]))
               incs true [] ;;
        end_of_stream env outcome s) ;;
     audio <- synthesize_speech env (join response_chunks) (voice_for language)
                output_audio true ;;
     m <- get_metrics ;;
     ret {| transcript := tr_text t;
            response := join response_chunks;
            audio_size := Z.of_nat (List.length audio);
            latency := report m |})
      (loop_start env audio_file language (tr_text t) video_id w0).
Proof.
  intros Hoa Hw Han Hc. unfold whisper_language in Hw.
  unfold voice_pipeline_simple, voice_pipeline_simple_with,
    transcribe_audio, retrieve_context, stream_claude_response, call_whisper,
    call_claude, new_metrics, end_of_stream, loop_start, whisper_language.
  unfold stamp at 1 2 3 4 5, when, bind at 1 2 3 4 5 6 7 8 9 10 11 12.
  unfold emit, time_time, update_metrics, ret at 1 2 3 4 5 6 7 8, raise.
  simpl. rewrite Hoa. simpl. rewrite Hw. simpl. rewrite Han. simpl.
  rewrite Hc. simpl. reflexivity.
Qed.

(** ** What a computation leaves untouched in the metrics *)

Section Frames.

Variable env : Env.
Variable f : VoicePipelineMetrics -> Q.

Lemma preserves_ret {A} (a : A) : preserves f (ret a).
Proof. intros w. reflexivity. Qed.

Lemma preserves_raise {A} (e : exn) : preserves f (@raise A e).
Proof. intros w. reflexivity. Qed.

Lemma preserves_bind {A B} (m : M A) (k : A -> M B) :
  preserves f m -> (forall a, preserves f (k a)) -> preserves f (bind m k).
Proof.
  intros Hm Hk w. specialize (Hm w). unfold bind.
  destruct (m w) as [[a|e] w']; simpl in *.
  - rewrite Hk. exact Hm.
  - exact Hm.
Qed.

Lemma preserves_try_except {A} (m : M A) (handler : exn -> M A) :
  preserves f m -> (forall e, preserves f (handler e)) ->
  preserves f (try_except m handler).
Proof.
  intros Hm Hh w. specialize (Hm w). unfold try_except.
  destruct (m w) as [[a|e] w']; simpl in *.
  - exact Hm.
  - rewrite Hh. exact Hm.
Qed.

Lemma preserves_emit (e : Event) : preserves f (emit e).
Proof. intros w. reflexivity. Qed.

Lemma preserves_stamp (tracked : bool)
    (set : Q -> VoicePipelineMetrics -> VoicePipelineMetrics) :
  untouched_by f set -> preserves f (stamp env tracked set).
Proof.
  intros H w. destruct tracked; simpl; [apply H | reflexivity].
Qed.

Lemma preserves_stamp_off
    (set : Q -> VoicePipelineMetrics -> VoicePipelineMetrics) :
  preserves f (stamp env false set).
Proof. intros w. reflexivity. Qed.

Lemma preserves_call_elevenlabs (text voice : str) :
  preserves f (call_elevenlabs env text voice).
Proof.
  intros w. unfold call_elevenlabs.
  destruct (elevenlabs env (tts_calls w) text voice); reflexivity.
Qed.

Lemma preserves_call_write_file (path : str) (data : bytes) :
  preserves f (call_write_file env path data).
Proof.
  intros w. unfold call_write_file, bind, emit. simpl.
  destruct (write_file env path data); reflexivity.
Qed.

Lemma preserves_assemble (output_audio : option str) (user_message : str)
    (st : LoopState) :
  preserves f (assemble env output_audio user_message st).
Proof.
  intros w.
  destruct (assemble_keeps_dispatches env output_audio user_message st w)
    as (_ & _ & H).
  rewrite H. reflexivity.
Qed.

Lemma preserves_synthesize_tail (text voice : str) (output_file : option str)
    (tracked : bool) :
  (tracked = false \/ untouched_by f set_tts_end) ->
  preserves f
    (try_except
       (audio_bytes <- call_elevenlabs env text voice ;;
        match output_file with
        | Some path =>
            if truthy path then call_write_file env path audio_bytes
            else ret tt
        | None => ret tt
        end ;;
        stamp env tracked set_tts_end ;;
        ret audio_bytes)
       (fun _ => stamp env tracked set_tts_end ;; ret [])).
Proof.
  intros H.
  assert (Hend : preserves f (stamp env tracked set_tts_end)).
  { destruct H as [-> | H]; [apply preserves_stamp_off | apply preserves_stamp, H]. }
  apply preserves_try_except.
  - apply preserves_bind; [apply preserves_call_elevenlabs|]. intros b.
    apply preserves_bind.
    + destruct output_file as [path|]; [|apply preserves_ret].
      destruct (truthy path);
        [apply preserves_call_write_file | apply preserves_ret].
    + intros _. apply preserves_bind; [exact Hend|].
      intros _. apply preserves_ret.
  - intros e. apply preserves_bind; [exact Hend|].
    intros _. apply preserves_ret.
Qed.

(** [synthesize_speech] leaves [f] alone when it is called without the
    metrics object, when [f] reads neither TTS timestamp, or when the
    credential is missing and [f] does not read [tts_start]. *)
Lemma preserves_synthesize_speech (text voice : str)
    (output_file : option str) (tracked : bool) :
  (tracked = false
   \/ (untouched_by f set_tts_start
       /\ (untouched_by f set_tts_end
           \/ truthy_opt (ELEVENLABS_API_KEY env) = false))) ->
  preserves f (synthesize_speech env text voice output_file tracked).
Proof.
  intros H. unfold synthesize_speech.
  apply preserves_bind.
  - destruct H as [-> | [H _]];
      [apply preserves_stamp_off | apply preserves_stamp, H].
  - intros _. apply preserves_bind; [apply preserves_emit|]. intros _.
    destruct (truthy_opt (ELEVENLABS_API_KEY env)) eqn:E; simpl.
    + apply preserves_synthesize_tail.
      destruct H as [H | [_ [H | H]]]; auto. discriminate H.
    + apply preserves_ret.
Qed.

Lemma preserves_text_stream {S : Type} (tracked : bool)
    (body : S -> str -> M S) (texts : list str) :
  untouched_by f set_llm_first_token ->
  (forall s c, preserves f (body s c)) ->
  forall first_token s,
    preserves f (text_stream env tracked body texts first_token s).
Proof.
  intros Hft Hbody. induction texts as [|c rest IH]; intros first_token s.
  - apply preserves_ret.
  - simpl. apply preserves_bind; [apply preserves_stamp, Hft|].
    intros _. apply preserves_bind; [apply Hbody|].
    intros s'. apply IH.
Qed.

Lemma preserves_end_of_stream {S : Type} (outcome : option exn) (s : S) :
  untouched_by f set_llm_end -> preserves f (end_of_stream env outcome s).
Proof.
  intros H. destruct outcome; unfold end_of_stream.
  - apply preserves_raise.
  - apply preserves_bind; [apply preserves_stamp, H|].
    intros _. apply preserves_ret.
Qed.

Variable language : str.
Variable chunk_size : Z.

Lemma preserves_streaming_body (st : LoopState) (chunk : str) :
  (forall text tracked,
      preserves f (synthesize_speech env text (voice_for language) None tracked)) ->
  preserves f (streaming_body env language chunk_size st chunk).
Proof.
  intros Hsyn. unfold streaming_body.
  destruct (_ || _); [|apply preserves_ret].
  destruct (truthy _); [|apply preserves_ret].
  apply preserves_bind; [apply Hsyn|]. intros a. apply preserves_ret.
Qed.

Lemma preserves_flush_remaining (st : LoopState) :
  preserves f (flush_remaining env language st).
Proof.
  unfold flush_remaining.
  destruct (buffer st); [apply preserves_ret|].
  destruct (truthy _); [|apply preserves_ret].
  apply preserves_bind.
  - apply preserves_synthesize_speech. left. reflexivity.
  - intros a. apply preserves_ret.
Qed.

End Frames.

(** ** Fatal stage errors *)

(** X6.  When the transcription provider (or opening the audio file)
    raises, the request ends with that exception in both modes; Whisper is
    the only thing that was called and [stt_start] the only timestamp
    recorded, so no later stage was entered. *)
Theorem transcription_error_ends_request
    (env : Env) (stream : bool) (audio_file language : str)
    (video_id output_audio : option str) (chunk_size : Z) (w0 : World)
    (e : exn) :
  truthy_opt (OPENAI_API_KEY env) = true ->
  whisper env audio_file (whisper_language language) = Raise e ->
  let run := run_pipeline env stream audio_file language video_id output_audio
                          chunk_size w0 in
  fst run = Raise e
  /\ trace (snd run)
     = trace w0 ++ [CallWhisper audio_file (whisper_language language)]
  /\ metrics (snd run)
     = mkMetrics (clock env (time_calls w0)) 0%Q 0%Q 0%Q 0%Q 0%Q 0%Q 0%Q 0%Q.
Proof.
  intros Hoa Hw. unfold whisper_language in Hw. cbv zeta.
  destruct stream;
    unfold run_pipeline, voice_pipeline_streaming, voice_pipeline_simple,
      voice_pipeline_streaming_with, voice_pipeline_simple_with,
      transcribe_audio, call_whisper, new_metrics, whisper_language,
      stamp, when, bind, emit, time_time, update_metrics, ret, raise;
    simpl; rewrite Hoa; simpl; rewrite Hw; simpl; auto.
Qed.

Lemma transcription_error_ends_request_witness :
  let run := run_pipeline deaf_env true (lit "question.wav") (lit "en") None
                          None 200 initial_world in
  fst run = Raise (ProviderError (lit "connection refused"))
  /\ trace (snd run) = [CallWhisper (lit "question.wav") (Some (lit "en"))]
  /\ metrics (snd run)
     = mkMetrics (inject_Z 1000) 0%Q 0%Q 0%Q 0%Q 0%Q 0%Q 0%Q 0%Q.
Proof.
  apply (transcription_error_ends_request deaf_env true (lit "question.wav")
           (lit "en") None None 200 initial_world
           (ProviderError (lit "connection refused")));
    reflexivity.
Defined.

Lemma in_loop_events (env : Env) (voice : str) (texts : list str) (ev : Event) :
  In ev (loop_events env voice texts) -> is_external ev = true ->
  exists t, ev = CallElevenLabs t voice.
Proof.
  induction texts as [|t ts IH]; simpl; [tauto|].
  intros [<- | H] Hext; [discriminate Hext|].
  apply in_app_or in H as [H | H]; [|apply IH; assumption].
  destruct (truthy_opt (ELEVENLABS_API_KEY env)); simpl in H; [|tauto].
  destruct H as [<- | []]. exists t. reflexivity.
Qed.

(** X7.  When the Claude stream raises after the increments [incs], the
    request ends with that exception in both modes and no partial result is
    returned.  In streaming mode the chunks closed before the failure have
    been dispatched to the synthesizer; the rest of the buffer is not
    flushed, [llm_end] stays unset and no output file is written.  In
    simple mode nothing is synthesized. *)
Theorem generation_error_ends_request
    (env : Env) (audio_file language : str)
    (video_id output_audio : option str) (chunk_size : Z) (w0 : World)
    (t : Transcription) (incs : list str) (e : exn) :
  truthy_opt (OPENAI_API_KEY env) = true ->
  whisper env audio_file (whisper_language language) = Ok t ->
  truthy_opt (ANTHROPIC_API_KEY env) = true ->
  claude env (full_message (tr_text t)
                (placeholder_context (tr_text t) video_id)) = (incs, Some e) ->
  let streaming := voice_pipeline_streaming env audio_file language video_id
                     output_audio chunk_size w0 in
  let simple := voice_pipeline_simple env audio_file language video_id
                  output_audio w0 in
  fst streaming = Raise e
  /\ (exists (blks : list (list str)) (rest : list str),
         concat blks ++ rest = incs
         /\ dispatched (trace (snd streaming))
            = dispatched (trace w0) ++ map (fun b => strip (join b)) blks
         /\ Forall (fun b =>
                      strip (join b) <> []
                      /\ ((chunk_size <= len (join b))%Z
                          \/ endswith_any (last b []) terminators = true)) blks
         /\ (strip (join rest) <> [] ->
             (len (join rest) < chunk_size)%Z
             /\ endswith_any (last rest []) terminators = false))
  /\ llm_end (metrics (snd streaming)) = 0%Q
  /\ (forall path data, In (WriteFile path data) (trace (snd streaming)) ->
                        In (WriteFile path data) (trace w0))
  /\ fst simple = Raise e
  /\ dispatched (trace (snd simple)) = dispatched (trace w0).
Proof.
  intros Hoa Hw Han Hc. cbv zeta.
  rewrite (streaming_prefix env audio_file language video_id output_audio
             chunk_size t incs (Some e) w0 Hoa Hw Han Hc).
  rewrite (simple_prefix env audio_file language video_id output_audio
             t incs (Some e) w0 Hoa Hw Han Hc).
  set (ls := loop_start env audio_file language (tr_text t) video_id w0).
  destruct (text_stream_run env language chunk_size true incs true
              (mkLoop [] [] []) ls)
    as (st1 & we & Hrun & _ & Hbuf & _ & Htr & _).
  assert (Hinner :
            (s <- text_stream env true (streaming_body env language chunk_size)
                    incs true (mkLoop [] [] []) ;;
             end_of_stream env (Some e) s) ls = (Raise e, we)).
  { rewrite (bind_ok _ _ _ _ _ Hrun). reflexivity. }
  rewrite (bind_raise _ _ _ _ _ Hinner).
  destruct (text_stream_collect env true incs true [] ls)
    as (wc & Hcol & Htrc & _).
  assert (Hinner2 :
            (s <- text_stream env true (fun acc chunk => ret (acc ++ [chunk]))
                    incs true [] ;;
             end_of_stream env (Some e) s) ls = (Raise e, wc)).
  { rewrite (bind_ok _ _ _ _ _ Hcol). reflexivity. }
  rewrite (bind_raise _ _ _ _ _ Hinner2). simpl.
  assert (Hls : dispatched (trace ls) = dispatched (trace w0)).
  { subst ls. unfold loop_start. simpl. rewrite !dispatched_app. simpl.
    rewrite !app_nil_r. reflexivity. }
  split; [reflexivity|]. split; [|split; [|split; [|split]]].
  - exists (blocks chunk_size [] incs), (leftover chunk_size [] incs).
    destruct (blocks_sound chunk_size incs [] (kept_nil chunk_size))
      as [Hb Hk].
    split; [apply (blocks_partition chunk_size incs [])|].
    split; [|split].
    + rewrite Htr, dispatched_app, dispatched_loop_events, Hls. reflexivity.
    + eapply Forall_impl; [|exact Hb].
      intros b (H1 & H2 & _). split; assumption.
    + intros Hne. apply Hk, truthy_true_iff, Hne.
  - assert (Hkeep : preserves llm_end
                      (text_stream env true
                         (streaming_body env language chunk_size) incs true
                         (mkLoop [] [] []))).
    { apply preserves_text_stream; [intros ? ?; reflexivity|].
      intros s c. apply preserves_streaming_body. intros text tracked.
      apply preserves_synthesize_speech. right.
      split; [intros ? ?; reflexivity | left; intros ? ?; reflexivity]. }
    specialize (Hkeep ls). rewrite Hrun in Hkeep. exact Hkeep.
  - intros path data Hin. rewrite Htr in Hin.
    apply in_app_or in Hin as [Hin | Hin].
    + subst ls. unfold loop_start in Hin. simpl in Hin.
      apply in_app_or in Hin as [Hin | [Hin | []]]; [|discriminate Hin].
      apply in_app_or in Hin as [Hin | [Hin | []]];
        [exact Hin | discriminate Hin].
    + destruct (in_loop_events _ _ _ _ Hin eq_refl) as (x & Hx).
      discriminate Hx.
  - reflexivity.
  - rewrite Htrc. exact Hls.
Qed.

Lemma generation_error_ends_request_witness :
  let streaming :=
    voice_pipeline_streaming (broken_stream_env hello_world_bye)
      (lit "question.wav") (lit "en") None (Some (lit "answer.mp3")) 100
      initial_world in
  fst streaming = Raise (ProviderError (lit "overloaded"))
  /\ llm_end (metrics (snd streaming)) = 0%Q.
Proof.
  destruct (generation_error_ends_request (broken_stream_env hello_world_bye)
              (lit "question.wav") (lit "en") None (Some (lit "answer.mp3"))
              100 initial_world
              (mkTranscription (lit "What is RAG?") (Some (lit "en"))
                               (Some 2%Q))
              hello_world_bye (ProviderError (lit "overloaded"))
              eq_refl eq_refl eq_refl eq_refl)
    as (H1 & _ & H2 & _).
  split; assumption.
Defined.

(** ** The text answer and the synthesis calls of the two modes *)

Lemma remove_ws_nil_iff (s : str) :
  remove_ws s = [] <-> forallb is_space s = true.
Proof.
  unfold remove_ws. induction s as [|c s IH]; simpl.
  - tauto.
  - destruct (is_space c); simpl; [exact IH|].
    split; discriminate.
Qed.

Lemma remove_ws_stripped_nonempty (b : list str) :
  stripped b <> [] -> remove_ws (stripped b) <> [].
Proof.
  unfold stripped. intros Hne H. apply Hne.
  apply remove_ws_nil_iff, strip_nil_iff in H.
  rewrite strip_idempotent in H. exact H.
Qed.

Lemma chunk_texts_blank (T : Z) (incs : list str) :
  strip (join incs) = [] -> chunk_texts T incs = [].
Proof.
  intros Hblank.
  pose proof (remove_ws_chunk_texts T incs) as Hws.
  rewrite (remove_ws_all_space _ Hblank) in Hws.
  destruct (chunk_texts_blocks T incs) as (blks & rest & _ & Hmap & _).
  pose proof (chunk_texts_nonempty T incs) as Hne.
  rewrite Hmap in *. destruct blks as [|b blks]; [reflexivity|].
  simpl in *. inversion Hne as [|? ? Hb _]. subst.
  rewrite remove_ws_app in Hws. apply app_eq_nil in Hws as [Hws _].
  exfalso. exact (remove_ws_stripped_nonempty b Hb Hws).
Qed.

Lemma synthesize_speech_provider_call (env : Env) (text voice : str)
    (output_file : option str) (tracked : bool) (w : World) :
  truthy_opt (ELEVENLABS_API_KEY env) = true ->
  elevenlabs_calls
    (trace (snd (synthesize_speech env text voice output_file tracked w)))
  = elevenlabs_calls (trace w) ++ [text].
Proof.
  intros Hkey.
  unfold synthesize_speech, stamp, when, bind, try_except, emit,
    call_elevenlabs, call_write_file, time_time, update_metrics, ret, raise.
  destruct tracked; simpl; rewrite Hkey; simpl;
    (destruct (elevenlabs env (tts_calls w) text voice) as [b|e]; simpl;
     [destruct output_file as [path|]; simpl;
      [destruct (truthy path); simpl;
       [destruct (write_file env path b); simpl|]|]|]);
    rewrite !elevenlabs_calls_app; simpl; rewrite ?app_nil_r; reflexivity.
Qed.

(** X8.  The text of the answer does not depend on synthesis: whenever
    transcription and generation succeed, both modes return Whisper's text
    as transcript and the exact concatenation of the increments, whitespace
    included, as response, whatever the synthesis provider does (in
    streaming mode, provided the output file can be written). *)
Theorem text_answer_is_exact
    (env : Env) (audio_file language user_message : str)
    (video_id output_audio : option str) (chunk_size : Z) (incs : list str)
    (w0 : World) :
  generation_yields env audio_file language video_id user_message incs ->
  (writes_succeed env ->
   exists r w1,
     voice_pipeline_streaming env audio_file language video_id output_audio
                              chunk_size w0 = (Ok r, w1)
     /\ transcript r = user_message /\ response r = join incs)
  /\ (exists r w1,
         voice_pipeline_simple env audio_file language video_id output_audio w0
         = (Ok r, w1)
         /\ transcript r = user_message /\ response r = join incs).
Proof.
  intros Hgen. split.
  - intros Hwr.
    destruct (streaming_run env audio_file language video_id output_audio
                chunk_size user_message incs w0 Hgen)
      as (st & w1 & Hrun & Hrc & _).
    destruct (assemble_run env output_audio user_message st w1 (or_introl Hwr))
      as (w2 & Hasm).
    eexists. exists w2. rewrite Hrun. split; [exact Hasm|]. simpl.
    rewrite Hrc. auto.
  - destruct (simple_run env audio_file language video_id output_audio
                user_message incs w0 Hgen) as (w1 & Hrun & _).
    destruct (synthesize_speech_total env (join incs) (voice_for language)
                output_audio true w1) as (b & w2 & Hsyn & _).
    rewrite Hrun, (bind_ok _ _ _ _ _ Hsyn). simpl.
    eexists. eexists. split; [reflexivity|]. auto.
Qed.

Lemma text_answer_is_exact_witness :
  exists r w1,
    voice_pipeline_streaming (flaky_env three_sentences) (lit "question.wav")
      (lit "en") None None 100 initial_world = (Ok r, w1)
    /\ transcript r = lit "What is RAG?"
    /\ response r = lit "One. Two. Three.".
Proof.
  apply (proj1 (text_answer_is_exact (flaky_env three_sentences)
                  (lit "question.wav") (lit "en") (lit "What is RAG?") None
                  None 100 three_sentences initial_world
                  (sample_env_yields three_sentences None))).
  intros path data. reflexivity.
Defined.

(** X9.  When the whole response is empty or whitespace only, streaming
    mode dispatches nothing to the synthesizer and completes with an audio
    size of 0, whatever the provider and the file system would do. *)
Theorem blank_response_is_not_synthesized
    (env : Env) (audio_file language user_message : str)
    (video_id output_audio : option str) (chunk_size : Z) (incs : list str)
    (w0 : World) :
  generation_yields env audio_file language video_id user_message incs ->
  strip (join incs) = [] ->
  exists r w1,
    voice_pipeline_streaming env audio_file language video_id output_audio
                             chunk_size w0 = (Ok r, w1)
    /\ audio_size r = 0%Z
    /\ response r = join incs
    /\ dispatched (trace w1) = dispatched (trace w0)
    /\ external_calls (trace w1)
       = external_calls (trace w0)
         ++ [CallWhisper audio_file (whisper_language language);
             CallClaude (full_message user_message
                           (placeholder_context user_message video_id))].
Proof.
  intros Hgen Hblank.
  destruct (streaming_run env audio_file language video_id output_audio
              chunk_size user_message incs w0 Hgen)
    as (st & w1 & Hrun & Hrc & Hau & Htr).
  rewrite (chunk_texts_blank _ _ Hblank) in Hau, Htr. simpl in Hau, Htr.
  assert (Hsilent : concat (audio_chunks st) = []) by (rewrite Hau; reflexivity).
  destruct (assemble_run env output_audio user_message st w1
              (or_intror Hsilent)) as (w2 & Hasm).
  assert (Hw2 : trace w2 = trace w1).
  { revert Hasm. unfold assemble. rewrite Hsilent, andb_false_r.
    unfold when, get_metrics, bind, ret. simpl.
    intros H. injection H as <-. reflexivity. }
  eexists. exists w2. rewrite Hrun. split; [exact Hasm|]. simpl.
  rewrite Hsilent, Hrc, Hw2, Htr. unfold external_calls.
  rewrite dispatched_app, filter_app. simpl. rewrite app_nil_r. auto.
Qed.

Lemma blank_response_is_not_synthesized_witness :
  exists r w1,
    voice_pipeline_streaming (readonly_env [lit " "; lit "  "])
      (lit "question.wav") (lit "en") None (Some (lit "answer.mp3")) 0
      initial_world = (Ok r, w1)
    /\ audio_size r = 0%Z
    /\ dispatched (trace w1) = [].
Proof.
  destruct (blank_response_is_not_synthesized (readonly_env [lit " "; lit "  "])
              (lit "question.wav") (lit "en") (lit "What is RAG?") None
              (Some (lit "answer.mp3")) 0 [lit " "; lit "  "] initial_world)
    as (r & w1 & Hrun & Hsize & _ & Hd & _).
  - unfold generation_yields. simpl. repeat split.
    eexists. split; reflexivity.
  - reflexivity.
  - exists r, w1. auto.
Defined.

(** X10.  In simple mode, with the synthesis credential set and generation
    successful, the provider is called exactly once, with the full response
    exactly as generated: not stripped, and also when it is empty. *)
Theorem simple_mode_synthesizes_whole_response
    (env : Env) (audio_file language user_message : str)
    (video_id output_audio : option str) (incs : list str) (w0 : World) :
  generation_yields env audio_file language video_id user_message incs ->
  truthy_opt (ELEVENLABS_API_KEY env) = true ->
  elevenlabs_calls
    (trace (snd (voice_pipeline_simple env audio_file language video_id
                   output_audio w0)))
  = elevenlabs_calls (trace w0) ++ [join incs].
Proof.
  intros Hgen Hkey.
  destruct (simple_run env audio_file language video_id output_audio
              user_message incs w0 Hgen) as (w1 & Hrun & Htr & _).
  pose proof (synthesize_speech_provider_call env (join incs)
                (voice_for language) output_audio true w1 Hkey) as Hcall.
  destruct (synthesize_speech_total env (join incs) (voice_for language)
              output_audio true w1) as (b & w2 & Hsyn & _).
  rewrite Hsyn in Hcall. simpl in Hcall.
  rewrite Hrun, (bind_ok _ _ _ _ _ Hsyn). simpl.
  rewrite Hcall, Htr, elevenlabs_calls_app. simpl.
  rewrite app_nil_r. reflexivity.
Qed.

Lemma simple_mode_synthesizes_whole_response_witness :
  elevenlabs_calls
    (trace (snd (voice_pipeline_simple (sample_env hello_world_bye)
                   (lit "question.wav") (lit "en") None None initial_world)))
  = [lit "Hello world. Bye"]
  /\ elevenlabs_calls
       (trace (snd (voice_pipeline_simple (sample_env [])
                      (lit "question.wav") (lit "en") None None initial_world)))
     = [[]].
Proof.
  split.
  - apply (simple_mode_synthesizes_whole_response (sample_env hello_world_bye)
             (lit "question.wav") (lit "en") (lit "What is RAG?") None None
             hello_world_bye initial_world
             (sample_env_yields hello_world_bye None) eq_refl).
  - apply (simple_mode_synthesizes_whole_response (sample_env [])
             (lit "question.wav") (lit "en") (lit "What is RAG?") None None
             [] initial_world (sample_env_yields [] None) eq_refl).
Defined.

(** ** An output file that cannot be written *)

Lemma audios_nonempty (env : Env) (k : nat) (voice : str) (texts : list str) :
  truthy_opt (ELEVENLABS_API_KEY env) = true ->
  (forall k t v, t <> [] -> exists b, elevenlabs env k t v = Ok b /\ b <> []) ->
  Forall (fun t => t <> []) texts ->
  texts <> [] ->
  concat (audios env k voice texts) <> [].
Proof.
  intros Hkey Hok Hall Hne. destruct texts as [|t ts]; [congruence|].
  simpl. unfold synth_audio at 1. rewrite Hkey.
  inversion Hall as [|? ? Ht _]. subst.
  destruct (Hok k t voice Ht) as (b & -> & Hb).
  intros H. apply app_eq_nil in H as [H _]. exact (Hb H).
Qed.

(** X11.  The two modes treat an unwritable output file differently.  With
    the credentials set, a provider that returns audio for every non-empty
    text, and a response with visible text: streaming mode synthesizes all
    chunks and then ends with the write error; simple mode catches the
    error inside [synthesize_speech], drops the audio it received and
    completes with an audio size of 0. *)
Theorem unwritable_output_file
    (env : Env) (audio_file language user_message path : str)
    (video_id : option str) (chunk_size : Z) (incs : list str) (w0 : World)
    (e : exn) :
  generation_yields env audio_file language video_id user_message incs ->
  truthy_opt (ELEVENLABS_API_KEY env) = true ->
  (forall k t v, t <> [] -> exists b, elevenlabs env k t v = Ok b /\ b <> []) ->
  strip (join incs) <> [] ->
  truthy path = true ->
  (forall data, write_file env path data = Some e) ->
  fst (voice_pipeline_streaming env audio_file language video_id (Some path)
         chunk_size w0) = Raise e
  /\ exists r w1,
       voice_pipeline_simple env audio_file language video_id (Some path) w0
       = (Ok r, w1)
       /\ audio_size r = 0%Z
       /\ response r = join incs.
Proof.
  intros Hgen Hkey Hok Hvis Hpath Hwr. split.
  - destruct (streaming_run env audio_file language video_id (Some path)
                chunk_size user_message incs w0 Hgen)
      as (st & w1 & Hrun & _ & Hau & _).
    assert (Htexts : chunk_texts chunk_size incs <> []).
    { intros H. pose proof (remove_ws_chunk_texts chunk_size incs) as Hws.
      rewrite H in Hws. simpl in Hws. symmetry in Hws.
      apply remove_ws_nil_iff, strip_nil_iff in Hws. exact (Hvis Hws). }
    pose proof (audios_nonempty env (tts_calls w0) (voice_for language) _
                  Hkey Hok (chunk_texts_nonempty chunk_size incs) Htexts)
      as Hne.
    rewrite <- Hau in Hne. rewrite Hrun.
    unfold assemble, when, call_write_file, bind, emit, ret, raise. simpl.
    rewrite Hpath. destruct (concat (audio_chunks st)) eqn:E; [congruence|].
    simpl. rewrite Hwr. reflexivity.
  - destruct (simple_run env audio_file language video_id (Some path)
                user_message incs w0 Hgen) as (w1 & Hrun & _).
    rewrite Hrun.
    unfold synthesize_speech, stamp, when, bind, try_except, emit,
      call_elevenlabs, call_write_file, get_metrics, time_time,
      update_metrics, ret, raise.
    simpl. rewrite Hkey. simpl.
    assert (Hjoin : join incs <> []).
    { intros H. rewrite H in Hvis. apply Hvis. reflexivity. }
    destruct (Hok (tts_calls w1) (join incs) (voice_for language) Hjoin)
      as (b & -> & _).
    simpl. rewrite Hpath. simpl. rewrite Hwr. simpl.
    eexists. eexists. split; [reflexivity|]. auto.
Qed.

Lemma unwritable_output_file_witness :
  fst (voice_pipeline_streaming (readonly_env hello_world_bye)
         (lit "question.wav") (lit "en") None (Some (lit "answer.mp3")) 100
         initial_world) = Raise (ProviderError (lit "read-only"))
  /\ exists r w1,
       voice_pipeline_simple (readonly_env hello_world_bye)
         (lit "question.wav") (lit "en") None (Some (lit "answer.mp3"))
         initial_world = (Ok r, w1)
       /\ audio_size r = 0%Z
       /\ response r = join hello_world_bye.
Proof.
  apply (unwritable_output_file (readonly_env hello_world_bye)
           (lit "question.wav") (lit "en") (lit "What is RAG?")
           (lit "answer.mp3") None 100 hello_world_bye initial_world
           (ProviderError (lit "read-only"))).
  - unfold generation_yields. simpl. repeat split.
    eexists. split; reflexivity.
  - reflexivity.
  - intros k t v Ht. eexists. split; [reflexivity|].
    destruct t; [congruence | discriminate].
  - vm_compute. discriminate.
  - reflexivity.
  - intros data. reflexivity.
Defined.

(** ** Timing *)

Lemma preserves_get_metrics (f : VoicePipelineMetrics -> Q) :
  preserves f get_metrics.
Proof. intros w. reflexivity. Qed.

Lemma report_without_tts_end (m : VoicePipelineMetrics) :
  tts_end m = 0%Q ->
  tts_latency_ms (report m) = 0%Q /\ total_latency_ms (report m) = 0%Q.
Proof. intros H. unfold report. simpl. rewrite H. split; reflexivity. Qed.

(** X12.  Without the synthesis credential [tts_end] is never recorded, so a
    request that otherwise succeeds reports 0 for the synthesis latency and
    also for the end-to-end latency, in both modes. *)
Theorem missing_synthesis_credential_zeroes_total_latency
    (env : Env) (audio_file language user_message : str)
    (video_id output_audio : option str) (chunk_size : Z) (incs : list str)
    (w0 : World) :
  generation_yields env audio_file language video_id user_message incs ->
  truthy_opt (ELEVENLABS_API_KEY env) = false ->
  (exists r w1,
      voice_pipeline_streaming env audio_file language video_id output_audio
                               chunk_size w0 = (Ok r, w1)
      /\ tts_latency_ms (latency r) = 0%Q
      /\ total_latency_ms (latency r) = 0%Q)
  /\ (exists r w1,
         voice_pipeline_simple env audio_file language video_id output_audio w0
         = (Ok r, w1)
         /\ tts_latency_ms (latency r) = 0%Q
         /\ total_latency_ms (latency r) = 0%Q).
Proof.
  intros Hgen Hkey.
  pose proof Hgen as (Hoa & Han & (t & Hw & Ht) & Hc). subst user_message.
  assert (Hsyn : forall text voice out tracked,
             preserves tts_end (synthesize_speech env text voice out tracked)).
  { intros. apply preserves_synthesize_speech. right.
    split; [intros ? ?; reflexivity | right; exact Hkey]. }
  split.
  - destruct (streaming_run env audio_file language video_id output_audio
                chunk_size (tr_text t) incs w0 Hgen)
      as (st & w1 & Hrun & _ & Hau & _).
    assert (Hsilent : concat (audio_chunks st) = []).
    { rewrite Hau. apply concat_audios_no_key, Hkey. }
    destruct (assemble_run env output_audio (tr_text t) st w1
                (or_intror Hsilent)) as (w2 & Hasm).
    destruct (assemble_keeps_dispatches env output_audio (tr_text t) st w1)
      as (_ & _ & Hm).
    rewrite Hasm in Hm. simpl in Hm.
    assert (Hend : tts_end (metrics w1) = 0%Q).
    { rewrite <- Hm.
      assert (Hfinal : snd (voice_pipeline_streaming env audio_file language
                              video_id output_audio chunk_size w0) = w2)
        by (rewrite Hrun, Hasm; reflexivity).
      rewrite <- Hfinal.
      rewrite (streaming_prefix env audio_file language video_id output_audio
                 chunk_size t incs None w0 Hoa Hw Han Hc).
      match goal with
      | |- tts_end (metrics (snd (?m ?w))) = _ =>
          assert (Hp : preserves tts_end m)
      end.
      { apply preserves_bind.
        - apply preserves_bind.
          + apply preserves_text_stream; [intros ? ?; reflexivity|].
            intros s c. apply preserves_streaming_body. intros. apply Hsyn.
          + intros s. apply preserves_end_of_stream. intros ? ?. reflexivity.
        - intros st'. apply preserves_bind;
            [apply preserves_flush_remaining|].
          intros st''. apply preserves_assemble. }
      rewrite Hp. reflexivity. }
    eexists. exists w2. rewrite Hrun. split; [exact Hasm|]. simpl.
    apply report_without_tts_end, Hend.
  - destruct (simple_run env audio_file language video_id output_audio
                (tr_text t) incs w0 Hgen) as (w1 & Hrun & _).
    destruct (synthesize_speech_no_key env (join incs) (voice_for language)
                output_audio true w1 Hkey) as (w2 & Hs & _).
    assert (Hresult :
              voice_pipeline_simple env audio_file language video_id
                                    output_audio w0
              = (Ok {| transcript := tr_text t;
                       response := join incs;
                       audio_size := 0;
                       latency := report (metrics w2) |}, w2)).
    { rewrite Hrun, (bind_ok _ _ _ _ _ Hs). reflexivity. }
    assert (Hend : tts_end (metrics w2) = 0%Q).
    { assert (Hfinal : snd (voice_pipeline_simple env audio_file language
                              video_id output_audio w0) = w2)
        by (rewrite Hresult; reflexivity).
      rewrite <- Hfinal.
      rewrite (simple_prefix env audio_file language video_id output_audio
                 t incs None w0 Hoa Hw Han Hc).
      match goal with
      | |- tts_end (metrics (snd (?m ?w))) = _ =>
          assert (Hp : preserves tts_end m)
      end.
      { apply preserves_bind.
        - apply preserves_bind.
          + apply preserves_text_stream; [intros ? ?; reflexivity|].
            intros s c. apply preserves_ret.
          + intros s. apply preserves_end_of_stream. intros ? ?. reflexivity.
        - intros rc. apply preserves_bind; [apply Hsyn|].
          intros a. apply preserves_bind; [apply preserves_get_metrics|].
          intros m. apply preserves_ret. }
      rewrite Hp. reflexivity. }
    eexists. exists w2. split; [exact Hresult|]. simpl.
    apply report_without_tts_end, Hend.
Qed.

Lemma missing_synthesis_credential_zeroes_total_latency_witness :
  exists r w1,
    voice_pipeline_simple (silent_env hello_world_bye) (lit "question.wav")
      (lit "en") None None initial_world = (Ok r, w1)
    /\ tts_latency_ms (latency r) = 0%Q
    /\ total_latency_ms (latency r) = 0%Q.
Proof.
  refine (proj2 (missing_synthesis_credential_zeroes_total_latency
                   (silent_env hello_world_bye) (lit "question.wav") (lit "en")
                   (lit "What is RAG?") None None 100 hello_world_bye
                   initial_world _ eq_refl)).
  unfold generation_yields. simpl. repeat split.
  eexists. split; reflexivity.
Defined.

Lemma text_stream_collect_untimed (env : Env) (texts : list str) :
  forall (acc : list str) (w : World),
    text_stream env true (fun acc chunk => ret (acc ++ [chunk])) texts false
                acc w = (Ok (acc ++ texts), w).
Proof.
  induction texts as [|c rest IH]; intros acc w; simpl.
  - rewrite app_nil_r. reflexivity.
  - unfold bind at 1. simpl. unfold bind at 1, ret at 1.
    rewrite IH, <- app_assoc. reflexivity.
Qed.

Lemma synthesize_speech_tracked_metrics (env : Env) (text voice : str)
    (output_file : option str) (w : World) :
  truthy_opt (ELEVENLABS_API_KEY env) = true ->
  metrics (snd (synthesize_speech env text voice output_file true w))
  = set_tts_end (clock env (S (time_calls w)))
      (set_tts_start (clock env (time_calls w)) (metrics w)).
Proof.
  intros Hkey.
  unfold synthesize_speech, stamp, when, bind, try_except, emit,
    call_elevenlabs, call_write_file, time_time, update_metrics, ret, raise.
  simpl. rewrite Hkey. simpl.
  destruct (elevenlabs env (tts_calls w) text voice) as [b|e]; simpl;
    [destruct output_file as [path|]; simpl;
     [destruct (truthy path); simpl;
      [destruct (write_file env path b); simpl|]|]|];
    reflexivity.
Qed.

Lemma snd_simple_tail (env : Env) (text voice user_message full : str)
    (output_audio : option str) (w : World) :
  snd ((audio <- synthesize_speech env text voice output_audio true ;;
        m <- get_metrics ;;
        ret {| transcript := user_message;
               response := full;
               audio_size := Z.of_nat (List.length audio);
               latency := report m |}) w)
  = snd (synthesize_speech env text voice output_audio true w).
Proof.
  unfold bind at 1.
  destruct (synthesize_speech env text voice output_audio true w)
    as [[a|e] w']; reflexivity.
Qed.

(** X13.  In simple mode the stages are timed strictly one after another.
    With generation successful and the synthesis credential set, the
    request reads the clock once per timestamp and records the readings in
    pipeline order: [stt_start], [stt_end], [rag_start], [rag_end],
    [llm_start], then [llm_first_token] if at least one increment arrived
    (otherwise it stays 0), [llm_end], [tts_start], [tts_end]; this holds
    whether synthesis succeeds or fails. *)
Theorem simple_mode_timestamps_in_order
    (env : Env) (audio_file language user_message : str)
    (video_id output_audio : option str) (incs : list str) (w0 : World) :
  generation_yields env audio_file language video_id user_message incs ->
  truthy_opt (ELEVENLABS_API_KEY env) = true ->
  let t := fun n => clock env (n + time_calls w0) in
  metrics (snd (voice_pipeline_simple env audio_file language video_id
                  output_audio w0))
  = match incs with
    | [] => mkMetrics (t 0) (t 1) (t 2) (t 3) (t 4) 0%Q (t 5) (t 6) (t 7)
    | _ :: _ =>
        mkMetrics (t 0) (t 1) (t 2) (t 3) (t 4) (t 5) (t 6) (t 7) (t 8)
    end.
Proof.
  intros (Hoa & Han & (tr & Hw & Ht) & Hc) Hkey. subst user_message.
  cbv zeta.
  rewrite (simple_prefix env audio_file language video_id output_audio
             tr incs None w0 Hoa Hw Han Hc).
  set (ls := loop_start env audio_file language (tr_text tr) video_id w0).
  destruct incs as [|c rest].
  - unfold bind at 1. simpl.
    rewrite snd_simple_tail, (synthesize_speech_tracked_metrics _ _ _ _ _ Hkey).
    reflexivity.
  - unfold bind at 1. unfold bind at 1. simpl.
    unfold bind at 1. simpl. unfold bind at 1, ret at 1.
    rewrite text_stream_collect_untimed. simpl.
    rewrite snd_simple_tail, (synthesize_speech_tracked_metrics _ _ _ _ _ Hkey).
    reflexivity.
Qed.

Lemma simple_mode_timestamps_in_order_witness :
  metrics (snd (voice_pipeline_simple (flaky_env hello_world_bye)
                  (lit "question.wav") (lit "en") None None initial_world))
  = mkMetrics (inject_Z 1000) (inject_Z 1001) (inject_Z 1002) (inject_Z 1003)
              (inject_Z 1004) (inject_Z 1005) (inject_Z 1006) (inject_Z 1007)
              (inject_Z 1008).
Proof.
  apply (simple_mode_timestamps_in_order (flaky_env hello_world_bye)
           (lit "question.wav") (lit "en") (lit "What is RAG?") None None
           hello_world_bye initial_world).
  - unfold generation_yields. simpl. repeat split.
    eexists. split; reflexivity.
  - reflexivity.
Defined.

(** ** More on the chunks of a streaming request *)

Lemma length_trailing (rest : list str) : List.length (trailing rest) <= 1.
Proof. unfold trailing. destruct (truthy (stripped rest)); simpl; lia. Qed.

Lemma length_chunks_from (T : Z) (incs buf : list str) :
  List.length (map stripped (blocks T buf incs) ++ trailing (leftover T buf incs))
  <= List.length incs + List.length (trailing buf).
Proof.
  revert buf. induction incs as [|c rest IH]; intros buf; simpl.
  - lia.
  - destruct (fires T (buf ++ [c]) c).
    + specialize (IH []). simpl in *. lia.
    + specialize (IH (buf ++ [c])).
      pose proof (length_trailing (buf ++ [c])). lia.
Qed.

(** X14.  A streaming request never makes more synthesis calls than it
    received increments: every dispatched chunk uses up at least one
    increment. *)
Theorem no_more_chunks_than_increments
    (env : Env) (audio_file language user_message : str)
    (video_id output_audio : option str) (chunk_size : Z) (incs : list str)
    (w0 : World) :
  generation_yields env audio_file language video_id user_message incs ->
  exists sent,
    dispatched (trace (snd (voice_pipeline_streaming env audio_file language
                              video_id output_audio chunk_size w0)))
    = dispatched (trace w0) ++ sent
    /\ List.length sent <= List.length incs.
Proof.
  intros Hgen. exists (chunk_texts chunk_size incs).
  split; [eapply streaming_dispatches; eassumption|].
  pose proof (length_chunks_from chunk_size incs []) as H.
  simpl in H. unfold chunk_texts. lia.
Qed.

Lemma no_more_chunks_than_increments_witness :
  exists sent,
    dispatched (trace (snd (voice_pipeline_streaming
                              (sample_env three_sentences) (lit "question.wav")
                              (lit "en") None None 1 initial_world)))
    = dispatched (trace initial_world) ++ sent
    /\ List.length sent <= List.length three_sentences.
Proof.
  apply (no_more_chunks_than_increments (sample_env three_sentences)
           (lit "question.wav") (lit "en") (lit "What is RAG?") None None 1
           three_sentences initial_world).
  apply sample_env_yields.
Defined.

Lemma len_nonneg (s : str) : (0 <= len s)%Z.
Proof. unfold len. lia. Qed.

Lemma blocks_under_threshold (T : Z) (incs buf : list str) :
  (len (join (buf ++ incs)) < T)%Z ->
  Forall (fun c => endswith_any c terminators = false) incs ->
  blocks T buf incs = [] /\ leftover T buf incs = buf ++ incs.
Proof.
  revert buf. induction incs as [|c rest IH]; intros buf Hlen Hend; simpl.
  - rewrite app_nil_r. auto.
  - inversion Hend as [|? ? Hc Hrest]. subst.
    assert (Hfire : fires T (buf ++ [c]) c = false).
    { unfold fires. rewrite Hc.
      replace (buf ++ c :: rest) with ((buf ++ [c]) ++ rest) in Hlen
        by (rewrite <- app_assoc; reflexivity).
      rewrite join_app, len_app in Hlen.
      pose proof (len_nonneg (join rest)).
      destruct (Z.leb_spec T (len (join (buf ++ [c])))); [lia|].
      reflexivity. }
    rewrite Hfire.
    destruct (IH (buf ++ [c])) as [H1 H2].
    + rewrite <- app_assoc. exact Hlen.
    + exact Hrest.
    + rewrite H1, H2, <- app_assoc. auto.
Qed.

Lemma streaming_body_idle (env : Env) (language : str) (T : Z)
    (st : LoopState) (c : str) :
  fires T (buffer st ++ [c]) c = false ->
  streaming_body env language T st c
  = ret (mkLoop (response_chunks st ++ [c]) (buffer st ++ [c])
                (audio_chunks st)).
Proof.
  unfold fires, streaming_body. intros H.
  destruct (_ || _); [|reflexivity].
  simpl in H. rewrite H. reflexivity.
Qed.

Lemma preserves_text_stream_idle (env : Env) (f : VoicePipelineMetrics -> Q)
    (language : str) (T : Z) (tracked : bool) (texts : list str) :
  untouched_by f set_llm_first_token ->
  forall (first_token : bool) (st : LoopState),
    blocks T (buffer st) texts = [] ->
    preserves f (text_stream env tracked (streaming_body env language T)
                   texts first_token st).
Proof.
  intros Hft. induction texts as [|c rest IH]; intros first_token st Hb.
  - apply preserves_ret.
  - simpl in Hb |- *.
    destruct (fires T (buffer st ++ [c]) c) eqn:F; [discriminate Hb|].
    apply preserves_bind; [apply preserves_stamp, Hft|]. intros _.
    rewrite (streaming_body_idle env language T st c F).
    intros w. unfold bind at 1, ret at 1. cbv beta iota.
    apply (IH _ (mkLoop (response_chunks st ++ [c]) (buffer st ++ [c])
                   (audio_chunks st)) Hb).
Qed.

Lemma assemble_latency (env : Env) (output_audio : option str)
    (user_message : str) (st : LoopState) (w : World) (r : PipelineResult) :
  fst (assemble env output_audio user_message st w) = Ok r ->
  latency r = report (metrics w).
Proof.
  unfold assemble, when, call_write_file, get_metrics, bind, emit, ret, raise.
  destruct output_audio as [path|]; simpl.
  - destruct (truthy path && _); simpl.
    + destruct (write_file env path (concat (audio_chunks st))); simpl;
        [discriminate|].
      intros H. injection H as <-. reflexivity.
    + intros H. injection H as <-. reflexivity.
  - intros H. injection H as <-. reflexivity.
Qed.

(** X15.  When the whole response stays under the chunk-size threshold and
    no increment ends with a terminator, streaming mode synthesizes it as
    one chunk after the stream has ended (none if it is blank), and that
    call is never timed: [tts_start] and [tts_end] stay 0 and a returned
    report shows 0 for the synthesis and the end-to-end latency. *)
Theorem short_answer_is_synthesized_untimed
    (env : Env) (audio_file language user_message : str)
    (video_id output_audio : option str) (chunk_size : Z) (incs : list str)
    (w0 : World) :
  generation_yields env audio_file language video_id user_message incs ->
  (len (join incs) < chunk_size)%Z ->
  Forall (fun c => endswith_any c terminators = false) incs ->
  let run := voice_pipeline_streaming env audio_file language video_id
               output_audio chunk_size w0 in
  dispatched (trace (snd run))
  = dispatched (trace w0)
    ++ (if truthy (strip (join incs)) then [strip (join incs)] else [])
  /\ tts_start (metrics (snd run)) = 0%Q
  /\ tts_end (metrics (snd run)) = 0%Q
  /\ forall r, fst run = Ok r ->
               tts_latency_ms (latency r) = 0%Q
               /\ total_latency_ms (latency r) = 0%Q.
Proof.
  intros Hgen Hlen Hend. cbv zeta.
  destruct (blocks_under_threshold chunk_size incs [] Hlen Hend) as [Hb Hl].
  simpl in Hl.
  pose proof Hgen as (Hoa & Han & (t & Hw & Ht) & Hc). subst user_message.
  assert (Hkeep : forall f,
             untouched_by f set_llm_first_token ->
             untouched_by f set_llm_end ->
             f (metrics (snd (voice_pipeline_streaming env audio_file language
                                video_id output_audio chunk_size w0)))
             = f (metrics (loop_start env audio_file language (tr_text t)
                             video_id w0))).
  { intros f H1 H2.
    rewrite (streaming_prefix env audio_file language video_id output_audio
               chunk_size t incs None w0 Hoa Hw Han Hc).
    match goal with
    | |- f (metrics (snd (?m ?w))) = _ => assert (Hp : preserves f m)
    end.
    { apply preserves_bind.
      - apply preserves_bind.
        + apply preserves_text_stream_idle; [exact H1 | exact Hb].
        + intros s. apply preserves_end_of_stream, H2.
      - intros st'. apply preserves_bind; [apply preserves_flush_remaining|].
        intros st''. apply preserves_assemble. }
    apply Hp. }
  assert (Hstart : tts_start (metrics (snd (voice_pipeline_streaming env
                     audio_file language video_id output_audio chunk_size w0)))
                   = 0%Q)
    by (rewrite (Hkeep tts_start); [reflexivity | |]; intros ? ?; reflexivity).
  assert (Hstop : tts_end (metrics (snd (voice_pipeline_streaming env
                    audio_file language video_id output_audio chunk_size w0)))
                  = 0%Q)
    by (rewrite (Hkeep tts_end); [reflexivity | |]; intros ? ?; reflexivity).
  split; [|split; [exact Hstart | split; [exact Hstop|]]].
  - rewrite (streaming_dispatches env audio_file language (tr_text t) video_id
               output_audio chunk_size incs w0 Hgen).
    unfold chunk_texts, trailing, stripped. rewrite Hb, Hl. reflexivity.
  - intros r Hr.
    destruct (streaming_run env audio_file language video_id output_audio
                chunk_size (tr_text t) incs w0 Hgen)
      as (st & w1 & Hrun & _).
    rewrite Hrun in Hr, Hstop.
    rewrite (assemble_latency _ _ _ _ _ _ Hr).
    destruct (assemble_keeps_dispatches env output_audio (tr_text t) st w1)
      as (_ & _ & Hm).
    rewrite Hm in Hstop. apply report_without_tts_end, Hstop.
Qed.

Lemma short_answer_is_synthesized_untimed_witness :
  let run := voice_pipeline_streaming (sample_env [lit "Hello"; lit " there"])
               (lit "question.wav") (lit "en") None None 200 initial_world in
  dispatched (trace (snd run)) = [lit "Hello there"]
  /\ tts_start (metrics (snd run)) = 0%Q
  /\ tts_end (metrics (snd run)) = 0%Q.
Proof.
  destruct (short_answer_is_synthesized_untimed
              (sample_env [lit "Hello"; lit " there"]) (lit "question.wav")
              (lit "en") (lit "What is RAG?") None None 200
              [lit "Hello"; lit " there"] initial_world)
    as (H1 & H2 & H3 & _).
  - apply sample_env_yields.
  - reflexivity.
  - repeat constructor.
  - cbv zeta. split; [exact H1|]. split; assumption.
Defined.

(** ** Timing of a streaming request that dispatches inside the loop *)

Section StreamingTiming.

Variable env : Env.
Variable language : str.
Variable chunk_size : Z.

Hypothesis Hkey : truthy_opt (ELEVENLABS_API_KEY env) = true.







End StreamingTiming.



